(** * shred: the number-atom model and the isotope electron cloud

    A shallow embedding of
      - [src/js/model/NumberAtom.js] (the reactive atom model), and
      - the [IsotopeElectronCloudView] part of [src/unnamed/part_001]
        (the electron-count to cloud-size mapping),
    together with the properties of the design document that concern them,
    and of the views that hang on the atom:
      - the [ExpandedPeriodicTableNode] part of [src/unnamed/part_001],
      - [ParticleNode] and [PeriodicTableCell] of [src/js/view/ParticleNode.js],
      - [src/js/view/ParticleCountDisplay.js],
    with the properties their code shows.

    JavaScript numbers are IEEE 754 binary64 values; they are modelled by the
    primitive [float] type, whose operations are the binary64 ones.  Particle
    counts are integers ([numberType: 'Integer'] in the source) and are
    modelled by [Z]; their sums and differences are rounded as binary64
    rounds them ([Js.plus], [Js.minus]). *)

From Stdlib Require Import ZArith List String Ascii Bool Lia.
From Stdlib Require Import Decimal DecimalString DecimalZ.
From Stdlib Require Import Floats.
Import ListNotations.

Set Warnings "-inexact-float".

(** ** Results of calls that may throw *)

Inductive Error : Type :=
| AssertionError (message : string).

Inductive result (A : Type) : Type :=
| Ok (a : A)
| Throw (e : Error).

Arguments Ok {A} a.
Arguments Throw {A} e.

Definition is_ok {A} (r : result A) : bool :=
  match r with Ok _ => true | Throw _ => false end.

(** ** The fragment of JavaScript the sources rely on *)

Module Js.

(** The primitive values that flow through [getElectronShellDiameter]:
    numbers, and the strings a [for ... in] loop produces. *)
Inductive value : Type :=
| Num (x : float)
| Str (s : string).

(** [Number.MAX_VALUE], the largest finite binary64 number. *)
Definition MAX_VALUE : float := 0x1.fffffffffffffp+1023%float.

(** The binary64 number nearest to an integer (round to nearest, ties to
    even). *)
Definition of_Z (z : Z) : float :=
  SF2Prim (binary_normalize prec emax z 0 false).

(** The integer a binary64 number holds when an integer result is rounded
    into it: every integer up to 2^53 in magnitude is a binary64 number; a
    larger one is rounded to 53 significant bits, to the nearest, ties to
    even.  (A result beyond [Number.MAX_VALUE] is Infinity in JavaScript and
    has no integer value; nothing below goes that far.) *)
Definition round (z : Z) : Z :=
  let a := Z.abs z in
  if (a <=? 2 ^ 53)%Z then z
  else
    let d := (Z.log2 a - 52)%Z in
    let q := (a / 2 ^ d)%Z in
    let r := (a mod 2 ^ d)%Z in
    let half := (2 ^ (d - 1))%Z in
    let q' :=
      if (r <? half)%Z then q
      else if (half <? r)%Z then (q + 1)%Z
      else if Z.even q then q else (q + 1)%Z in
    (Z.sgn z * (q' * 2 ^ d))%Z.

(** [x + y] and [x - y] on numbers that hold integers. *)
Definition plus (x y : Z) : Z := round (x + y).
Definition minus (x y : Z) : Z := round (x - y).

(** The integer that a finite number with an integer value holds. *)
Definition to_Z (x : float) : Z :=
  match Prim2SF x with
  | S754_finite s m e =>
      if s then (- Z.shiftl (Zpos m) e)%Z else Z.shiftl (Zpos m) e
  | _ => 0%Z
  end.

Arguments round : simpl never.
Arguments plus : simpl never.
Arguments minus : simpl never.

(** The decimal digits of an integer, with a leading minus sign below
    zero. *)
Definition decimal (n : Z) : string :=
  NilZero.string_of_int (Z.to_int n).

(** The shortest decimal numeral [s * 10^(e - k + 1)], [s] of [k] digits,
    that denotes the number [x]: for [k = 1, 2, ...] digits, the multiples
    of [10^(n-k)] next to [x] are tried, and of two that denote [x] the
    closer one is taken.  [n] is the number of decimal digits of [x]; the
    multiple above [x] may have one digit more than [x], and is then a power
    of ten.  The result is [s] and the exponent [e]. *)
Fixpoint shortest (ks : list Z) (n x : Z) : Z * Z :=
  match ks with
  | [] => ((x / 10 ^ (n - 17))%Z, (n - 1)%Z)
  | k :: ks' =>
      let scale := (10 ^ (n - k))%Z in
      let lo := (x / scale)%Z in
      let hi := (lo + 1)%Z in
      let denotes (s : Z) :=
        ((10 ^ (k - 1) <=? s) && (s <=? 10 ^ k)
         && (round (s * scale) =? x))%Z in
      let numeral (s : Z) :=
        if (s =? 10 ^ k)%Z then (1%Z, n) else (s, (n - 1)%Z) in
      if denotes lo && denotes hi then
        if (x - lo * scale <=? hi * scale - x)%Z then numeral lo
        else numeral hi
      else if denotes lo then numeral lo
      else if denotes hi then numeral hi
      else shortest ks' n x
  end.

(** [Number::toString] on a positive integer from 10^21 on: exponent
    notation, one digit before the point. *)
Definition exponential (x : Z) : string :=
  let n := Z.of_nat (String.length (decimal x)) in
  let '(s, e) :=
    shortest [1; 2; 3; 4; 5; 6; 7; 8; 9; 10; 11; 12; 13; 14; 15; 16; 17]%Z
      n x in
  match decimal s with
  | EmptyString => "NaN"
  | String c EmptyString =>
      String c (String "e" (String "+" (decimal e)))
  | String c (String c' rest) =>
      String c (String "." (String c' (rest ++ "e+" ++ decimal e)))
  end.

(** [Number::toString] on an integer-valued number: its decimal digits up
    to 10^21, with a leading minus sign below zero, and exponent notation
    from 10^21 on. *)
Definition ToString (n : Z) : string :=
  if (Z.abs n <? 10 ^ 21)%Z then decimal n
  else if (n <? 0)%Z then String "-" (exponential (- n))
  else exponential n.

(** [StringToNumber] on the decimal integer literals, the only strings that
    occur as property keys in the sources; the empty string is 0 and a
    string that is not a decimal integer literal is NaN. *)
Definition StringToNumber (s : string) : float :=
  match s with
  | EmptyString => 0%float
  | _ => match NilZero.int_of_string s with
         | Some d => of_Z (Z.of_int d)
         | None => nan
         end
  end.

Definition ToNumber (v : value) : float :=
  match v with
  | Num x => x
  | Str s => StringToNumber s
  end.

(** [a < b]: two strings are compared as strings, code unit by code unit;
    in every other case both operands are converted to numbers, and a
    comparison with NaN is false. *)
Definition lt (a b : value) : bool :=
  match a, b with
  | Str s, Str t => String.ltb s t
  | _, _ => PrimFloat.ltb (ToNumber a) (ToNumber b)
  end.

(** [a > b] is [b < a]. *)
Definition gt (a b : value) : bool := lt b a.

(** [a - b] converts both operands to numbers. *)
Definition sub (a b : value) : float :=
  (ToNumber a - ToNumber b)%float.

(** An object literal with number-like keys: its own enumerable string
    keys in enumeration order (ascending integer order, which is the order
    the literals below are written in), each with its value. *)
Definition object : Type := list (string * float).

(** The keys a [for (const k in o)] loop visits, in order. *)
Definition keys (o : object) : list string := map fst o.

(** [o[k]]. *)
Fixpoint get (o : object) (k : string) : option float :=
  match o with
  | [] => None
  | (k', v) :: o' => if String.eqb k k' then Some v else get o' k
  end.

(** [k in o]. *)
Definition has (o : object) (k : string) : bool :=
  match get o k with Some _ => true | None => false end.

End Js.

(** ** dot/js/LinearFunction.js *)

Module Dot.

(** Modelled from the spec: [LinearFunction] belongs to the dot library and
    is not among the sources.  The design document gives the interpolation
    it performs: [output = b1 + (input - a1) / (a2 - a1) * (b2 - b1)].  The
    subtractions involving [a1] and [a2] are JavaScript subtractions, so
    they convert string operands to numbers. *)
Definition LinearFunction (a1 a2 : Js.value) (b1 b2 : float)
    (a3 : Js.value) : float :=
  (b1 + Js.sub a3 a1 / Js.sub a2 a1 * (b2 - b1))%float.

End Dot.

(** ** IsotopeElectronCloudView (src/unnamed/part_001, second file) *)

Module IsotopeElectronCloudView.

Open Scope string_scope.

(** [const MAX_ELECTRONS = 10; // For neon.] *)
Definition MAX_ELECTRONS : Z := 10.

(** The object literal [mapElectronCountToRadius]: the keys are property
    keys, hence strings, and the entries for 3 and 4 are the products the
    source writes. *)
Definition mapElectronCountToRadius : Js.object :=
  [ ("1", 38%float);
    ("2", 32%float);
    ("3", (134 * 0.75)%float);
    ("4", (90 * 0.97)%float);
    ("5", 82%float);
    ("6", 77%float);
    ("7", 75%float);
    ("8", 73%float);
    ("9", 71%float);
    ("10", 69%float) ].

(** One turn of the loop
    [for ( const radius in mapElectronCountToRadius ) { ... }]:
    [radius] is bound to a key of the object (a string), and the two
    running bounds are whatever was last assigned to them. *)
Definition shellRadiusStep (bounds : Js.value * Js.value) (radius : string)
    : Js.value * Js.value :=
  let '(minShellRadius, maxShellRadius) := bounds in
  let maxShellRadius :=
    if Js.gt (Js.Str radius) maxShellRadius then Js.Str radius
    else maxShellRadius in
  let minShellRadius :=
    if Js.lt (Js.Str radius) minShellRadius then Js.Str radius
    else minShellRadius in
  (minShellRadius, maxShellRadius).

(** The whole loop, started from
    [minShellRadius = Number.MAX_VALUE] and [maxShellRadius = 0]. *)
Definition shellRadiusBounds : Js.value * Js.value :=
  fold_left shellRadiusStep (Js.keys mapElectronCountToRadius)
    (Js.Num Js.MAX_VALUE, Js.Num 0%float).

Definition minShellRadius : Js.value := fst shellRadiusBounds.
Definition maxShellRadius : Js.value := snd shellRadiusBounds.

Definition minChangedRadius : float := 40%float.
Definition maxChangedRadius : float := 55%float.

Definition reduceRadiusRange (value : float) : float :=
  Dot.LinearFunction minShellRadius maxShellRadius
    minChangedRadius maxChangedRadius (Js.Num value).

(** [getElectronShellDiameter].  [assert] tells whether assertions are
    enabled: [assert && assert( c, m )] throws when they are and [c] is
    false, and does nothing otherwise.  [numElectrons in o] holds exactly
    when the lookup [o[numElectrons]] finds an entry. *)
Definition getElectronShellDiameter (assert : bool) (numElectrons : Z)
    : result float :=
  match Js.get mapElectronCountToRadius (Js.ToString numElectrons) with
  | Some radius => Ok (reduceRadiusRange radius)
  | None =>
      if assert && negb (numElectrons <=? MAX_ELECTRONS)%Z
      then Throw (AssertionError
                    ("Atom has more than supported number of electrons, "
                       ++ Js.ToString numElectrons))
      else Ok 0%float
  end.

(** What [updateNode] writes: the radius and the fill of the circle. *)
Inductive Fill : Type :=
| transparent
| RadialGradient (x0 y0 r0 x1 y1 r1 : float) (colorStops : list (float * string)).

Record Circle : Type := mkCircle { radius : float; fill : Fill }.

Section UpdateNode.

(** [modelViewTransform.modelToViewDeltaX], supplied by the caller. *)
Variable modelToViewDeltaX : float -> float.
Variable assert : bool.

Definition updateNode (numElectrons : Z) (self : Circle) : result Circle :=
  if (numElectrons =? 0)%Z then
    Ok {| radius := 1E-5%float; fill := transparent |}
  else
    match getElectronShellDiameter assert numElectrons with
    | Throw e => Throw e
    | Ok diameter =>
        let radius1 := modelToViewDeltaX (diameter / 2)%float in
        let radius2 := (radius1 * 1.2)%float in
        Ok {| radius := radius2;
              fill := RadialGradient 0 0 0 0 0 radius2
                        [ (0%float, "rgba( 0, 0, 255, 0 )");
                          (1%float, "rgba( 0, 0, 255, 0.4 )") ] |}
    end.

End UpdateNode.

(** *** The mapping as the design document words it

    For comparison with the code: the bounds are the least and greatest
    VALUES of the table. *)
Definition spec_rawMin : float :=
  fold_left (fun m kv => if (snd kv <? m)%float then snd kv else m)
    mapElectronCountToRadius Js.MAX_VALUE.

Definition spec_rawMax : float :=
  fold_left (fun m kv => if (m <? snd kv)%float then snd kv else m)
    mapElectronCountToRadius 0%float.

Definition spec_radiusFor (electronCount : Z) : option float :=
  match Js.get mapElectronCountToRadius (Js.ToString electronCount) with
  | Some v =>
      Some (Dot.LinearFunction (Js.Num spec_rawMin) (Js.Num spec_rawMax)
              minChangedRadius maxChangedRadius (Js.Num v))
  | None => None
  end.

End IsotopeElectronCloudView.

(** ** The observable properties of axon, as NumberAtom uses them

    [NumberProperty], [DerivedProperty] and [Emitter] come from the axon
    toolkit, which is not among the sources.  NumberAtom relies on this much
    of their behaviour:
      - a property holds a value; [set] stores a value that differs from the
        current one and then notifies the listeners, and does nothing when
        the value is the same;
      - a derived property caches the value of its derivation and recomputes
        it when one of its dependencies notifies;
      - [emit] notifies the listeners of the emitter, whatever the state;
      - [dispose] detaches the listeners of a property or emitter, and
        detaches a derived property from its dependencies; the object itself
        stays usable, it only has nobody left to notify.
    Checks that the toolkit makes only when assertions are enabled are not
    part of this model: NumberAtom.js contains no check of its own, neither
    on the arguments of its methods nor on the atom having been disposed. *)

Module Axon.

Record Property : Type := mkProperty { value : Z; isDisposed : bool }.

Record Emitter : Type := mkEmitter { emitterIsDisposed : bool }.

Definition withValue (p : Property) (v : Z) : Property :=
  {| value := v; isDisposed := isDisposed p |}.

Definition disposeProperty (p : Property) : Property :=
  {| value := value p; isDisposed := true |}.

End Axon.

Import Axon.

Open Scope Z_scope.

(** ** NumberAtom (src/js/model/NumberAtom.js) *)

Inductive BaseField : Type := Proton | Neutron | Electron.

Inductive DerivedField : Type := Charge | MassNumber | ParticleCount.

(** What an observer of the atom can see happen, in the order it happens. *)
Inductive Event : Type :=
| DerivedChanged (d : DerivedField) (newValue oldValue : Z)
| BaseChanged (b : BaseField) (newValue oldValue : Z)
| AtomUpdated
| DerivedDisposed (d : DerivedField)
| BaseDisposed (b : BaseField)
| EmitterDisposed.

Record NumberAtom : Type := mkNumberAtom {
  protonCountProperty : Property;
  neutronCountProperty : Property;
  electronCountProperty : Property;
  chargeProperty : Property;
  massNumberProperty : Property;
  particleCountProperty : Property;
  atomUpdated : Emitter
}.

(** The ES5 getters. *)
Definition protonCount (a : NumberAtom) : Z := value (protonCountProperty a).
Definition neutronCount (a : NumberAtom) : Z := value (neutronCountProperty a).
Definition electronCount (a : NumberAtom) : Z := value (electronCountProperty a).

Definition baseProperty (b : BaseField) (a : NumberAtom) : Property :=
  match b with
  | Proton => protonCountProperty a
  | Neutron => neutronCountProperty a
  | Electron => electronCountProperty a
  end.

Definition derivedProperty (d : DerivedField) (a : NumberAtom) : Property :=
  match d with
  | Charge => chargeProperty a
  | MassNumber => massNumberProperty a
  | ParticleCount => particleCountProperty a
  end.

Definition withBase (b : BaseField) (p : Property) (a : NumberAtom) : NumberAtom :=
  match b with
  | Proton =>
      mkNumberAtom p (neutronCountProperty a) (electronCountProperty a)
        (chargeProperty a) (massNumberProperty a) (particleCountProperty a)
        (atomUpdated a)
  | Neutron =>
      mkNumberAtom (protonCountProperty a) p (electronCountProperty a)
        (chargeProperty a) (massNumberProperty a) (particleCountProperty a)
        (atomUpdated a)
  | Electron =>
      mkNumberAtom (protonCountProperty a) (neutronCountProperty a) p
        (chargeProperty a) (massNumberProperty a) (particleCountProperty a)
        (atomUpdated a)
  end.

Definition withDerived (d : DerivedField) (p : Property) (a : NumberAtom) : NumberAtom :=
  match d with
  | Charge =>
      mkNumberAtom (protonCountProperty a) (neutronCountProperty a)
        (electronCountProperty a) p (massNumberProperty a)
        (particleCountProperty a) (atomUpdated a)
  | MassNumber =>
      mkNumberAtom (protonCountProperty a) (neutronCountProperty a)
        (electronCountProperty a) (chargeProperty a) p
        (particleCountProperty a) (atomUpdated a)
  | ParticleCount =>
      mkNumberAtom (protonCountProperty a) (neutronCountProperty a)
        (electronCountProperty a) (chargeProperty a) (massNumberProperty a)
        p (atomUpdated a)
  end.

Definition withEmitter (e : Emitter) (a : NumberAtom) : NumberAtom :=
  mkNumberAtom (protonCountProperty a) (neutronCountProperty a)
    (electronCountProperty a) (chargeProperty a) (massNumberProperty a)
    (particleCountProperty a) e.

(** The derivation functions handed to the three [DerivedProperty]s.  Their
    [+] and [-] are those of JavaScript numbers. *)
Definition derivation (d : DerivedField) (a : NumberAtom) : Z :=
  match d with
  | Charge => Js.minus (protonCount a) (electronCount a)
  | MassNumber => Js.plus (protonCount a) (neutronCount a)
  | ParticleCount =>
      Js.plus (Js.plus (protonCount a) (neutronCount a)) (electronCount a)
  end.

(** The dependency arrays handed to the three [DerivedProperty]s. *)
Definition dependencies (d : DerivedField) : list BaseField :=
  match d with
  | Charge => [Proton; Electron]
  | MassNumber => [Proton; Neutron]
  | ParticleCount => [Proton; Neutron; Electron]
  end.

Definition BaseField_eqb (x y : BaseField) : bool :=
  match x, y with
  | Proton, Proton | Neutron, Neutron | Electron, Electron => true
  | _, _ => false
  end.

Definition dependsOn (d : DerivedField) (b : BaseField) : bool :=
  existsb (BaseField_eqb b) (dependencies d).

(** *** Methods run on the atom, may throw, and leave a trace of events *)

Definition M (A : Type) : Type :=
  NumberAtom -> result (A * NumberAtom * list Event).

Definition ret {A} (x : A) : M A := fun a => Ok (x, a, []).

Definition bind {A B} (m : M A) (k : A -> M B) : M B :=
  fun a =>
    match m a with
    | Throw e => Throw e
    | Ok (x, a1, t1) =>
        match k x a1 with
        | Throw e => Throw e
        | Ok (y, a2, t2) => Ok (y, a2, t1 ++ t2)
        end
    end.

Notation "m1 ;; m2" := (bind m1 (fun _ => m2))
  (at level 61, right associativity).

Definition notify (e : Event) : M unit := fun a => Ok (tt, a, [e]).

Definition when (c : bool) (m : M unit) : M unit := if c then m else ret tt.

(** The listener a live [DerivedProperty] keeps on each dependency: it
    recomputes the derivation and stores the result as [Property.set] would. *)
Definition recompute (d : DerivedField) : M unit :=
  fun a =>
    let p := derivedProperty d a in
    let v := derivation d a in
    if isDisposed p || (value p =? v) then Ok (tt, a, [])
    else Ok (tt, withDerived d (withValue p v) a,
             [DerivedChanged d v (value p)]).

(** [set] on one of the three count properties.  The derived properties were
    linked at construction, in the order charge, mass number, particle count,
    so their listeners run before any listener added later. *)
Definition setBase (b : BaseField) (v : Z) : M unit :=
  fun a =>
    let p := baseProperty b a in
    if value p =? v then Ok (tt, a, [])
    else
      let a1 := withBase b (withValue p v) a in
      if isDisposed p then Ok (tt, a1, [])
      else
        (when (dependsOn Charge b) (recompute Charge) ;;
         when (dependsOn MassNumber b) (recompute MassNumber) ;;
         when (dependsOn ParticleCount b) (recompute ParticleCount) ;;
         notify (BaseChanged b v (value p))) a1.

(** [atomUpdated.emit()]: unconditional; a disposed emitter has no listener
    left to hear it. *)
Definition emit : M unit :=
  fun a =>
    if emitterIsDisposed (atomUpdated a) then Ok (tt, a, [])
    else Ok (tt, a, [AtomUpdated]).

Definition disposeDerived (d : DerivedField) : M unit :=
  fun a =>
    Ok (tt, withDerived d (disposeProperty (derivedProperty d a)) a,
        [DerivedDisposed d]).

Definition disposeBase (b : BaseField) : M unit :=
  fun a =>
    Ok (tt, withBase b (disposeProperty (baseProperty b a)) a,
        [BaseDisposed b]).

Definition disposeEmitter : M unit :=
  fun a => Ok (tt, withEmitter (mkEmitter true) a, [EmitterDisposed]).

(** The constructor: [options] merged over the defaults 0, 0, 0. *)
Record Options : Type := mkOptions {
  opt_protonCount : option Z;
  opt_neutronCount : option Z;
  opt_electronCount : option Z
}.

Definition merge (default : Z) (o : option Z) : Z :=
  match o with Some v => v | None => default end.

Definition new_NumberAtom (options : Options) : NumberAtom :=
  let p := merge 0 (opt_protonCount options) in
  let n := merge 0 (opt_neutronCount options) in
  let e := merge 0 (opt_electronCount options) in
  {| protonCountProperty := mkProperty p false;
     neutronCountProperty := mkProperty n false;
     electronCountProperty := mkProperty e false;
     chargeProperty := mkProperty (Js.minus p e) false;
     massNumberProperty := mkProperty (Js.plus p n) false;
     particleCountProperty := mkProperty (Js.plus (Js.plus p n) e) false;
     atomUpdated := mkEmitter false |}.

(** [new NumberAtom( { protonCount: p, neutronCount: n, electronCount: e } )] *)
Definition withCounts (p n e : Z) : Options :=
  {| opt_protonCount := Some p;
     opt_neutronCount := Some n;
     opt_electronCount := Some e |}.

Definition equals (this otherAtom : NumberAtom) : bool :=
  (protonCount this =? protonCount otherAtom) &&
  (neutronCount this =? neutronCount otherAtom) &&
  (electronCount this =? electronCount otherAtom).

(** The three [set]s of [setSubAtomicParticleCount], before the emit. *)
Definition setCountProperties (protonCount neutronCount electronCount : Z)
    : M unit :=
  setBase Proton protonCount ;;
  setBase Electron electronCount ;;
  setBase Neutron neutronCount.

Definition setSubAtomicParticleCount
    (protonCount neutronCount electronCount : Z) : M unit :=
  setBase Proton protonCount ;;
  setBase Electron electronCount ;;
  setBase Neutron neutronCount ;;
  emit.

Definition dispose : M unit :=
  disposeDerived Charge ;;
  disposeDerived MassNumber ;;
  disposeDerived ParticleCount ;;
  disposeBase Proton ;;
  disposeBase Neutron ;;
  disposeBase Electron ;;
  disposeEmitter.

(** *** Vocabulary of the properties below *)

(** Nothing of the atom has been disposed. *)
Definition live (a : NumberAtom) : Prop :=
  isDisposed (protonCountProperty a) = false /\
  isDisposed (neutronCountProperty a) = false /\
  isDisposed (electronCountProperty a) = false /\
  isDisposed (chargeProperty a) = false /\
  isDisposed (massNumberProperty a) = false /\
  isDisposed (particleCountProperty a) = false /\
  emitterIsDisposed (atomUpdated a) = false.

(** The cached derived values agree with the current counts. *)
Definition consistent (a : NumberAtom) : Prop :=
  value (chargeProperty a) = derivation Charge a /\
  value (massNumberProperty a) = derivation MassNumber a /\
  value (particleCountProperty a) = derivation ParticleCount a.

(** The cached derived values are the exact integers p - e, p + n and
    p + n + e of the current counts. *)
Definition exactlyDerived (a : NumberAtom) : Prop :=
  value (chargeProperty a) = protonCount a - electronCount a /\
  value (massNumberProperty a) = protonCount a + neutronCount a /\
  value (particleCountProperty a)
    = protonCount a + neutronCount a + electronCount a.

(** The counts are not negative and their sum is a safe integer: no sum or
    difference of them is rounded. *)
Definition withinSafeIntegers (a : NumberAtom) : Prop :=
  0 <= protonCount a /\ 0 <= neutronCount a /\ 0 <= electronCount a /\
  protonCount a + neutronCount a + electronCount a <= 2 ^ 53.

(** The atoms obtained from [a0] by calls of [setSubAtomicParticleCount]
    that returned. *)
Inductive updatesFrom (a0 : NumberAtom) : NumberAtom -> Prop :=
| updates_none : updatesFrom a0 a0
| updates_step (a a' : NumberAtom) (p n e : Z) (t : list Event) :
    updatesFrom a0 a ->
    setSubAtomicParticleCount p n e a = Ok (tt, a', t) ->
    updatesFrom a0 a'.

(** The disposal flags of two atoms agree. *)
Definition sameFlags (a a' : NumberAtom) : Prop :=
  (forall b, isDisposed (baseProperty b a') = isDisposed (baseProperty b a)) /\
  (forall d, isDisposed (derivedProperty d a') = isDisposed (derivedProperty d a)) /\
  emitterIsDisposed (atomUpdated a') = emitterIsDisposed (atomUpdated a).

(** What [emit] adds to the trace. *)
Definition emitted (a : NumberAtom) : list Event :=
  if emitterIsDisposed (atomUpdated a) then [] else [AtomUpdated].

Definition Event_isAtomUpdated (e : Event) : bool :=
  match e with AtomUpdated => true | _ => false end.

(** How many times [atomUpdated] fired in a trace. *)
Definition emissions (t : list Event) : nat :=
  List.length (filter Event_isAtomUpdated t).

From Stdlib Require Import Permutation.

(** *** The remaining methods of NumberAtom *)

Section AtomicMass.

(** [AtomIdentifier.getStandardAtomicMass] and
    [AtomIdentifier.getIsotopeAtomicMass] are not among the sources; they
    are taken as they come. *)
Variable Mass : Type.
Variable AtomIdentifier_getStandardAtomicMass : Z -> Mass.
Variable AtomIdentifier_getIsotopeAtomicMass : Z -> Z -> Mass.

Definition getStandardAtomicMass (this : NumberAtom) : Mass :=
  AtomIdentifier_getStandardAtomicMass
    (Js.plus (value (protonCountProperty this))
       (value (neutronCountProperty this))).

Definition getIsotopeAtomicMass (this : NumberAtom) : Mass :=
  AtomIdentifier_getIsotopeAtomicMass
    (value (protonCountProperty this)) (value (neutronCountProperty this)).

End AtomicMass.

(** The new values the listeners of [protonCountProperty] are called with,
    in order. *)
Fixpoint protonChanges (t : list Event) : list Z :=
  match t with
  | [] => []
  | BaseChanged Proton newValue _ :: t' => newValue :: protonChanges t'
  | _ :: t' => protonChanges t'
  end.

(** ** IsotopeElectronCloudView: the constructor and its listener *)

Module CloudView.

Import IsotopeElectronCloudView.

(** The view: the circle it is, and whether [updateNode] is still linked to
    the atom's [protonCountProperty]. *)
Record t : Type := mkView { circle : Circle; linked : bool }.

Section Wiring.

Variable modelToViewDeltaX : float -> float.
Variable assert : bool.

(** The constructor.  [Circle.call( this, 1, options )] makes a circle of
    radius 1 with the fill the options carry; [updateNode] is then called
    with the electron count, and linked to [protonCountProperty].  Linking
    calls the listener at once with the current value of the property. *)
Definition new_IsotopeElectronCloudView (numberAtom : NumberAtom)
    (options_fill : Fill) : result t :=
  let self := {| radius := 1%float; fill := options_fill |} in
  match updateNode modelToViewDeltaX assert
          (value (electronCountProperty numberAtom)) self with
  | Throw e => Throw e
  | Ok self1 =>
      match updateNode modelToViewDeltaX assert
              (value (protonCountProperty numberAtom)) self1 with
      | Throw e => Throw e
      | Ok self2 => Ok {| circle := self2; linked := true |}
      end
  end.

(** The listener runs once for every change of the proton count, as long as
    it is linked. *)
Fixpoint protonCountChanged (newValues : list Z) (view : t) : result t :=
  match newValues with
  | [] => Ok view
  | protonCount :: rest =>
      if linked view then
        match updateNode modelToViewDeltaX assert protonCount (circle view) with
        | Throw e => Throw e
        | Ok self => protonCountChanged rest {| circle := self; linked := true |}
        end
      else protonCountChanged rest view
  end.

(** What the view does while the atom goes through a trace of events. *)
Definition follow (trace : list Event) (view : t) : result t :=
  protonCountChanged (protonChanges trace) view.

End Wiring.

(** [dispose]: [disposeIsotopeElectronCloudView] unlinks [updateNode]. *)
Definition dispose (view : t) : t :=
  {| circle := circle view; linked := false |}.

End CloudView.

(** ** ExpandedPeriodicTableNode (src/unnamed/part_001, first file) *)

Module ExpandedPeriodicTableNode.

(** [POPULATED_CELLS]: the columns that hold an element, row by row. *)
Definition POPULATED_CELLS : list (list Z) :=
  [ [0; 8];
    [0; 1; 3; 4; 5; 6; 7; 8];
    [0; 1; 3; 4; 5; 6; 7; 8] ].

Definition SELECTED_CELL_COLOR : string := "#FA8072".
Definition BUTTON_SIZE : Z := 50.

(** A [TextPushButton] of the table: its label, the atomic number its
    listener has captured, its colour and its place. *)
Record TextPushButton : Type := mkButton {
  text : string;
  atomicNumber : Z;
  baseColor : string;
  translation : Z * Z
}.

(** The node: its buttons, and the variable [highlightedButton] of the
    constructor, which is null or refers to one of the buttons (here by its
    index in [cells]). *)
Record t : Type := mkTable {
  cells : list TextPushButton;
  highlightedButton : option nat
}.

Section Table.

(** [SharedConstants.DISPLAY_PANEL_BACKGROUND_COLOR], [AtomIdentifier.getSymbol]
    and [AtomIdentifier.getNumNeutronsInMostCommonIsotope] are not among the
    sources; they are taken as they come. *)
Variable ENABLED_CELL_COLOR : string.
Variable getSymbol : Z -> string.
Variable getNumNeutronsInMostCommonIsotope : Z -> Z.

(** [rows], as the constructor computes it from [interactiveMax]. *)
Definition rowsFor (interactiveMax : Z) : Z :=
  if (2 <? interactiveMax) && (interactiveMax <=? 10) then 2
  else if 10 <? interactiveMax then 3
  else 1.

(** The function handed to [_.times]: it makes the button of the element
    [elementIndex] in column [populatedCellsInRow[ j ]] of row [i], pushes it
    on [cells], and advances [j] and [elementIndex].  ([j] stays below the
    length of the row, so the lookup always finds a column.) *)
Definition addButton (i : Z) (populatedCellsInRow : list Z)
    (st : list TextPushButton * nat * Z) : list TextPushButton * nat * Z :=
  let '(cells, j, elementIndex) := st in
  let button :=
    {| text := getSymbol elementIndex;
       atomicNumber := elementIndex;
       baseColor := ENABLED_CELL_COLOR;
       translation :=
         (nth j populatedCellsInRow 0 * BUTTON_SIZE, i * BUTTON_SIZE) |} in
  ((cells ++ [button])%list, S j, elementIndex + 1).

(** One turn of [for ( var i = 0; i < rows; i++ )]. *)
Definition addRow (st : list TextPushButton * Z) (i : Z)
    : list TextPushButton * Z :=
  let '(cells, elementIndex) := st in
  let populatedCellsInRow := nth (Z.to_nat i) POPULATED_CELLS [] in
  let '(cells', _, elementIndex') :=
    Nat.iter (List.length populatedCellsInRow)
      (addButton i populatedCellsInRow) (cells, 0%nat, elementIndex) in
  (cells', elementIndex').

(** The buttons the constructor makes, starting from [elementIndex = 1]. *)
Definition buildCells (interactiveMax : Z) : list TextPushButton :=
  fst (fold_left addRow
         (map Z.of_nat (seq 0 (Z.to_nat (rowsFor interactiveMax))))
         ([], 1)).

(** [button.baseColor = color] on the button at index [k]. *)
Fixpoint setBaseColor (k : nat) (color : string) (cells : list TextPushButton)
    : list TextPushButton :=
  match cells, k with
  | [], _ => []
  | b :: rest, O =>
      {| text := text b; atomicNumber := atomicNumber b;
         baseColor := color; translation := translation b |} :: rest
  | b :: rest, S k' => b :: setBaseColor k' color rest
  end.

(** The listener linked to [protonCountProperty]. *)
Definition protonCountListener (protonCount : Z) (self : t) : t :=
  let cells1 :=
    match highlightedButton self with
    | Some k => setBaseColor k ENABLED_CELL_COLOR (cells self)
    | None => cells self
    end in
  if (0 <? protonCount) && (protonCount <=? Z.of_nat (List.length (cells self)))
  then
    let k := Z.to_nat (protonCount - 1) in
    {| cells := setBaseColor k SELECTED_CELL_COLOR cells1;
       highlightedButton := Some k |}
  else
    {| cells := cells1; highlightedButton := highlightedButton self |}.

(** The constructor: the buttons, [highlightedButton = null], and the link,
    which calls the listener at once with the current proton count. *)
Definition new_ExpandedPeriodicTableNode (numberAtom : NumberAtom)
    (interactiveMax : Z) : t :=
  protonCountListener (value (protonCountProperty numberAtom))
    {| cells := buildCells interactiveMax; highlightedButton := None |}.

(** What the node does while the atom goes through a trace of events: the
    listener runs for every change of the proton count. *)
Definition follow (trace : list Event) (self : t) : t :=
  fold_left (fun s protonCount => protonCountListener protonCount s)
    (protonChanges trace) self.

(** The listener of a button. *)
Definition press (button : TextPushButton) : M unit :=
  setSubAtomicParticleCount (atomicNumber button)
    (getNumNeutronsInMostCommonIsotope (atomicNumber button))
    (atomicNumber button).

(** The colours the cells show when the element with [protonCount] protons
    is the highlighted one. *)
Definition shows (self : t) (protonCount : Z) : Prop :=
  forall k b, nth_error (cells self) k = Some b ->
    baseColor b =
      if Z.of_nat k + 1 =? protonCount then SELECTED_CELL_COLOR
      else ENABLED_CELL_COLOR.

(** Every button other than the one [highlightedButton] refers to has the
    enabled colour. *)
Definition othersEnabled (self : t) : Prop :=
  forall k b, nth_error (cells self) k = Some b ->
    highlightedButton self <> Some k ->
    baseColor b = ENABLED_CELL_COLOR.

End Table.

End ExpandedPeriodicTableNode.

(** ** ParticleNode (src/js/view/ParticleNode.js, first file) *)

Module ParticleNode.

Open Scope string_scope.

(** What can end up in [baseColor]: a CSS colour name, the colour object
    [PhetColorScheme.RED_COLORBLIND], or, for a [particleType] that names a
    member of [Object.prototype], that member. *)
Inductive Color : Type :=
| Css (name : string)
| RED_COLORBLIND
| InheritedMember (name : string).

(** The outcome of the lookup [colors[ particleType ]]. *)
Inductive Lookup : Type :=
| Found (c : Color)
| undefined.

(** The names every object literal inherits from [Object.prototype]. *)
Definition Object_prototype_names : list string :=
  [ "constructor"; "hasOwnProperty"; "isPrototypeOf"; "propertyIsEnumerable";
    "toLocaleString"; "toString"; "valueOf"; "__defineGetter__";
    "__defineSetter__"; "__lookupGetter__"; "__lookupSetter__"; "__proto__" ].

(** [colors[ particleType ]] for
    [colors = { proton: PhetColorScheme.RED_COLORBLIND, neutron: 'gray',
                electron: 'blue' }]. *)
Definition colors (particleType : string) : Lookup :=
  if String.eqb particleType "proton" then Found RED_COLORBLIND
  else if String.eqb particleType "neutron" then Found (Css "gray")
  else if String.eqb particleType "electron" then Found (Css "blue")
  else if existsb (String.eqb particleType) Object_prototype_names
       then Found (InheritedMember particleType)
  else undefined.

Record RadialGradient : Type := mkGradient {
  x0 : float; y0 : float; r0 : float;
  x1 : float; y1 : float; r1 : float;
  colorStops : list (float * Color)
}.

(** The options the constructor reads: the position handed on to [Node]
    (0 when the caller gives none) and [maxZLayer], which may be absent. *)
Record Options : Type := mkOptions {
  opt_x : float;
  opt_y : float;
  opt_maxZLayer : option float
}.

(** A particle node.  [id] stands for the identity of the JavaScript object:
    two nodes made by two calls of the constructor are different objects even
    when all their fields agree. *)
Record t : Type := mkNode {
  id : nat;
  particleType : string;
  radius : float;
  x : float;
  y : float;
  circleFill : RadialGradient;
  zLayer : float;
  maxZLayer : option float
}.

(** The constructor; [assert] tells whether assertions are enabled. *)
Definition new_ParticleNode (assert : bool) (id : nat)
    (particleType : string) (radius : float) (options : Options) : result t :=
  let make (baseColor : Color) :=
    {| id := id;
       particleType := particleType;
       radius := radius;
       x := opt_x options;
       y := opt_y options;
       circleFill :=
         {| x0 := (- radius * 0.4)%float; y0 := (- radius * 0.4)%float;
            r0 := 0%float;
            x1 := (- radius * 0.4)%float; y1 := (- radius * 0.4)%float;
            r1 := (radius * 1.6)%float;
            colorStops := [ (0%float, Css "white"); (1%float, baseColor) ] |};
       zLayer := 0%float;
       maxZLayer := opt_maxZLayer options |} in
  match colors particleType with
  | Found baseColor => Ok (make baseColor)
  | undefined =>
      if assert
      then Throw (AssertionError ("Unrecognized particle type: " ++ particleType))
      else Ok (make (Css "black"))
  end.

(** [isValidValue] of [zLayerProperty]:
    [value >= 0 && value <= options.maxZLayer].  An absent [maxZLayer] is
    [undefined], which a comparison converts to NaN. *)
Definition isValidValue (node : t) (value : float) : bool :=
  PrimFloat.leb 0 value &&
  PrimFloat.leb value (match maxZLayer node with Some m => m | None => nan end).

End ParticleNode.

(** ** ParticleCountDisplay (src/js/view/ParticleCountDisplay.js) *)

Module ParticleCountDisplay.

(** How a call into the display can end: it returns, it throws, it hands
    scenery something that is not a node or not a child of the layer, or the
    bound put on its loops here is used up. *)
Inductive Failure : Type :=
| Thrown (e : Error)
| NotANode
| NotAChild.

Inductive run (A : Type) : Type :=
| Returns (a : A)
| Fails (f : Failure)
| OutOfFuel.

Arguments Returns {A} a.
Arguments Fails {A} f.
Arguments OutOfFuel {A}.

(** The children of [particleLayer]: the spacer and particle nodes. *)
Inductive Child : Type :=
| Spacer
| Particle (node : ParticleNode.t).

(** The variables the closures of the constructor share. *)
Record t : Type := mkDisplay {
  particleLayer : list Child;
  protons : list ParticleNode.t;
  neutrons : list ParticleNode.t;
  protonDisplayCount : Z;
  neutronDisplayCount : Z;
  nextId : nat
}.

(** [array[ index ]]: undefined outside the array. *)
Definition at_index (array : list ParticleNode.t) (index : Z)
    : option ParticleNode.t :=
  if index <? 0 then None else nth_error array (Z.to_nat index).

(** [particleLayer.removeChild( node )]: the child that is this very object
    goes; [None] when the node is not a child. *)
Fixpoint removeChild (children : list Child) (node : ParticleNode.t)
    : option (list Child) :=
  match children with
  | [] => None
  | Spacer :: rest => option_map (cons Spacer) (removeChild rest node)
  | Particle n :: rest =>
      if Nat.eqb (ParticleNode.id n) (ParticleNode.id node) then Some rest
      else option_map (cons (Particle n)) (removeChild rest node)
  end.

(** [array.splice( index, 1 )] for an index inside the array. *)
Fixpoint splice1 (array : list ParticleNode.t) (index : nat)
    : list ParticleNode.t :=
  match array, index with
  | [], _ => []
  | _ :: rest, O => rest
  | n :: rest, S i => n :: splice1 rest i
  end.

Section Display.

Variable assert : bool.

(** The layout of the titles comes from scenery; the sizes follow from it as
    the constructor computes them. *)
Variable maxParticles : float.
Variable maxWidth : float.
Variable protonTitle_right : float.
Variable protonTitle_center_y : float.
Variable neutronTitle_right : float.
Variable neutronTitle_center_y : float.

Definition totalParticleSpace : float :=
  (maxWidth - protonTitle_right - 10)%float.

Definition nucleonRadius : float :=
  (totalParticleSpace / ((maxParticles * 2) + (maxParticles - 1) + 2))%float.

Definition interParticleSpacing : float := (nucleonRadius * 3)%float.

(** [incrementParticleCount]: the array, the layer and the supply of fresh
    objects go in and come out, beside the new quantity. *)
Definition incrementParticleCount
    (array : list ParticleNode.t) (currentQuantity : Z)
    (particleType : string) (radius startX startY : float)
    (layer : list Child) (fresh : nat)
    : run (list ParticleNode.t * Z * list Child * nat) :=
  let newIndex := currentQuantity in
  let pushed :=
    if newIndex =? Z.of_nat (List.length array) then
      match ParticleNode.new_ParticleNode assert fresh particleType radius
              {| ParticleNode.opt_x :=
                   (startX + Js.of_Z newIndex * interParticleSpacing)%float;
                 ParticleNode.opt_y := startY;
                 ParticleNode.opt_maxZLayer := None |} with
      | Ok node => Returns ((array ++ [node])%list, S fresh)
      | Throw e => Fails (Thrown e)
      end
    else Returns (array, fresh) in
  match pushed with
  | Returns (array1, fresh1) =>
      match at_index array1 newIndex with
      | Some node =>
          Returns (array1, currentQuantity + 1,
                   (layer ++ [Particle node])%list, fresh1)
      | None => Fails NotANode
      end
  | Fails f => Fails f
  | OutOfFuel => OutOfFuel
  end.

(** [decrementParticleCount]. *)
Definition decrementParticleCount
    (array : list ParticleNode.t) (currentQuantity : Z) (layer : list Child)
    : run (list ParticleNode.t * Z * list Child) :=
  let currentQuantity1 := currentQuantity - 1 in
  match at_index array currentQuantity1 with
  | None => Fails NotANode
  | Some node =>
      match removeChild layer node with
      | None => Fails NotAChild
      | Some layer1 =>
          Returns (splice1 array (Z.to_nat currentQuantity1),
                   currentQuantity1, layer1)
      end
  end.

(** The bodies of the four loops of [updateParticles]. *)
Definition addProton (self : t) : run t :=
  match incrementParticleCount (protons self) (protonDisplayCount self)
          "proton" nucleonRadius
          (protonTitle_right + interParticleSpacing)%float
          protonTitle_center_y (particleLayer self) (nextId self) with
  | Returns (array, quantity, layer, fresh) =>
      Returns {| particleLayer := layer; protons := array;
                 neutrons := neutrons self;
                 protonDisplayCount := quantity;
                 neutronDisplayCount := neutronDisplayCount self;
                 nextId := fresh |}
  | Fails f => Fails f
  | OutOfFuel => OutOfFuel
  end.

Definition removeProton (self : t) : run t :=
  match decrementParticleCount (protons self) (protonDisplayCount self)
          (particleLayer self) with
  | Returns (array, quantity, layer) =>
      Returns {| particleLayer := layer; protons := array;
                 neutrons := neutrons self;
                 protonDisplayCount := quantity;
                 neutronDisplayCount := neutronDisplayCount self;
                 nextId := nextId self |}
  | Fails f => Fails f
  | OutOfFuel => OutOfFuel
  end.

Definition addNeutron (self : t) : run t :=
  match incrementParticleCount (neutrons self) (neutronDisplayCount self)
          "neutron" nucleonRadius
          (neutronTitle_right + interParticleSpacing)%float
          neutronTitle_center_y (particleLayer self) (nextId self) with
  | Returns (array, quantity, layer, fresh) =>
      Returns {| particleLayer := layer; protons := protons self;
                 neutrons := array;
                 protonDisplayCount := protonDisplayCount self;
                 neutronDisplayCount := quantity;
                 nextId := fresh |}
  | Fails f => Fails f
  | OutOfFuel => OutOfFuel
  end.

Definition removeNeutron (self : t) : run t :=
  match decrementParticleCount (neutrons self) (neutronDisplayCount self)
          (particleLayer self) with
  | Returns (array, quantity, layer) =>
      Returns {| particleLayer := layer; protons := protons self;
                 neutrons := array;
                 protonDisplayCount := protonDisplayCount self;
                 neutronDisplayCount := quantity;
                 nextId := nextId self |}
  | Fails f => Fails f
  | OutOfFuel => OutOfFuel
  end.

(** [while ( condition ) { body }], cut off after [fuel] tests of the
    condition. *)
Fixpoint while (fuel : nat) (condition : t -> bool) (body : t -> run t)
    (self : t) : run t :=
  match fuel with
  | O => OutOfFuel
  | S fuel' =>
      if condition self then
        match body self with
        | Returns self' => while fuel' condition body self'
        | Fails f => Fails f
        | OutOfFuel => OutOfFuel
        end
      else Returns self
  end.

Definition andThen (r : run t) (k : t -> run t) : run t :=
  match r with
  | Returns self => k self
  | Fails f => Fails f
  | OutOfFuel => OutOfFuel
  end.

(** [updateParticles( atom )]. *)
Definition updateParticles (fuel : nat) (atom : NumberAtom) (self : t) : run t :=
  andThen
    (while fuel
       (fun s => value (protonCountProperty atom) >? protonDisplayCount s)
       addProton self)
    (fun s1 =>
  andThen
    (while fuel
       (fun s => value (protonCountProperty atom) <? protonDisplayCount s)
       removeProton s1)
    (fun s2 =>
  andThen
    (while fuel
       (fun s => value (neutronCountProperty atom) >? neutronDisplayCount s)
       addNeutron s2)
    (fun s3 =>
    while fuel
       (fun s => value (neutronCountProperty atom) <? neutronDisplayCount s)
       removeNeutron s3))).

(** The display before the first update: only the spacer in the layer. *)
Definition initial : t :=
  {| particleLayer := [Spacer]; protons := []; neutrons := [];
     protonDisplayCount := 0; neutronDisplayCount := 0; nextId := 0%nat |}.

(** The constructor, up to the initial update.  Linking the update to
    [particleCountProperty] runs it once, and the "initial update" runs it
    again. *)
Definition new_ParticleCountDisplay (fuel : nat) (numberAtom : NumberAtom)
    : run t :=
  andThen (updateParticles fuel numberAtom initial)
    (updateParticles fuel numberAtom).

(** *** Vocabulary of the properties below *)

(** The node that belongs in slot [index] of a row. *)
Definition inSlot (particleType : string) (startX startY : float)
    (index : nat) (node : ParticleNode.t) : Prop :=
  ParticleNode.particleType node = particleType /\
  ParticleNode.radius node = nucleonRadius /\
  ParticleNode.x node
    = (startX + Js.of_Z (Z.of_nat index) * interParticleSpacing)%float /\
  ParticleNode.y node = startY /\
  ParticleNode.maxZLayer node = None.

Definition rowInSlots (particleType : string) (startX startY : float)
    (array : list ParticleNode.t) : Prop :=
  forall index node, nth_error array index = Some node ->
    inSlot particleType startX startY index node.

(** The ids of the particle nodes among some children, in order. *)
Fixpoint childIds (children : list Child) : list nat :=
  match children with
  | [] => []
  | Spacer :: rest => childIds rest
  | Particle n :: rest => ParticleNode.id n :: childIds rest
  end.

(** The state the display keeps between updates: the counts are the lengths
    of the two arrays, every stored node sits in its slot, the layer holds
    the stored nodes and nothing else beside the spacer, and no two of them
    are the same object. *)
Definition wellFormed (self : t) : Prop :=
  protonDisplayCount self = Z.of_nat (List.length (protons self)) /\
  neutronDisplayCount self = Z.of_nat (List.length (neutrons self)) /\
  rowInSlots "proton" (protonTitle_right + interParticleSpacing)%float
    protonTitle_center_y (protons self) /\
  rowInSlots "neutron" (neutronTitle_right + interParticleSpacing)%float
    neutronTitle_center_y (neutrons self) /\
  Permutation (childIds (particleLayer self))
    (map ParticleNode.id (protons self) ++ map ParticleNode.id (neutrons self)) /\
  NoDup (childIds (particleLayer self)) /\
  (forall i, In i (childIds (particleLayer self)) -> (i < nextId self)%nat).

End Display.

End ParticleCountDisplay.

(** ** PeriodicTableCell (src/js/view/ParticleNode.js, second file) *)

Module PeriodicTableCell.

Open Scope string_scope.

Definition DISABLED_CELL_COLOR : string := "#EEEEEE".
Definition SELECTED_CELL_COLOR : string := "#FA8072".

(** A stroke: a CSS colour name or [PhetColorScheme.RED_COLORBLIND]. *)
Inductive Stroke : Type :=
| Css (name : string)
| RED_COLORBLIND.

(** The options the constructor and the methods read. *)
Record Options : Type := mkOptions {
  interactive : bool;
  showLabels : bool;
  popOnTouch : bool
}.

(** The cell: what its methods and listeners read and write.  The label is
    there when [showLabels] is set, the popup when the cell is interactive
    and [popOnTouch] is set, and the input listener when the cell is
    interactive.  [movedToFront] counts the calls of [moveToFront]. *)
Record t : Type := mkCell {
  options : Options;
  atomicNumber : Z;
  normalFill : string;
  highlightedFill : string;
  fill : string;
  stroke : Stroke;
  lineWidth : Z;
  labelFontWeight : option string;
  popupVisible : option bool;
  hasInputListener : bool;
  movedToFront : nat
}.

Inductive PointerType : Type := touch | mouse | pen.

Inductive InputEvent : Type :=
| up
| over (pointerType : PointerType)
| exit.

Section Cell.

(** [SharedConstants.DISPLAY_PANEL_BACKGROUND_COLOR],
    [AtomIdentifier.getNumNeutronsInMostCommonIsotope] and the font weight a
    new label starts with are not among the sources. *)
Variable ENABLED_CELL_COLOR : string.
Variable getNumNeutronsInMostCommonIsotope : Z -> Z.
Variable initialFontWeight : string.

(** The constructor. *)
Definition new_PeriodicTableCell (atomicNumber : Z) (options : Options) : t :=
  let normalFill :=
    if interactive options then ENABLED_CELL_COLOR else DISABLED_CELL_COLOR in
  {| options := options;
     atomicNumber := atomicNumber;
     normalFill := normalFill;
     highlightedFill := SELECTED_CELL_COLOR;
     fill := normalFill;
     stroke := Css "black";
     lineWidth := 1;
     labelFontWeight :=
       if showLabels options then Some initialFontWeight else None;
     popupVisible :=
       if interactive options && popOnTouch options then Some false else None;
     hasInputListener := interactive options;
     movedToFront := 0%nat |}.

(** [setHighlighted]. *)
Definition setHighlighted (highLighted : bool) (this : t) : t :=
  {| options := options this;
     atomicNumber := atomicNumber this;
     normalFill := normalFill this;
     highlightedFill := highlightedFill this;
     fill := if highLighted then highlightedFill this else normalFill this;
     stroke := if highLighted then RED_COLORBLIND else Css "black";
     lineWidth := if highLighted then 2 else 1;
     labelFontWeight :=
       if showLabels (options this)
       then Some (if highLighted then "bold" else "normal")
       else labelFontWeight this;
     popupVisible := popupVisible this;
     hasInputListener := hasInputListener this;
     movedToFront := movedToFront this |}.

Definition withPopup (visible : bool) (front : nat) (this : t) : t :=
  {| options := options this;
     atomicNumber := atomicNumber this;
     normalFill := normalFill this;
     highlightedFill := highlightedFill this;
     fill := fill this;
     stroke := stroke this;
     lineWidth := lineWidth this;
     labelFontWeight := labelFontWeight this;
     popupVisible := Some visible;
     hasInputListener := hasInputListener this;
     movedToFront := front |}.

(** What an input event does to the cell and to the atom: nothing without an
    input listener, and otherwise what the handlers [up], [over] and [exit]
    of the listener do. *)
Definition handle (event : InputEvent) (this : t) (numberAtom : NumberAtom)
    : result (t * NumberAtom * list Event) :=
  if hasInputListener this then
    match event with
    | up =>
        match setSubAtomicParticleCount (atomicNumber this)
                (getNumNeutronsInMostCommonIsotope (atomicNumber this))
                (atomicNumber this) numberAtom with
        | Ok (_, numberAtom', trace) => Ok (this, numberAtom', trace)
        | Throw e => Throw e
        end
    | over pointerType =>
        if popOnTouch (options this) then
          match pointerType with
          | touch => Ok (withPopup true (S (movedToFront this)) this,
                         numberAtom, [])
          | _ => Ok (this, numberAtom, [])
          end
        else Ok (this, numberAtom, [])
    | exit =>
        if popOnTouch (options this)
        then Ok (withPopup false (movedToFront this) this, numberAtom, [])
        else Ok (this, numberAtom, [])
    end
  else Ok (this, numberAtom, []).

(** A sequence of input events, one after the other. *)
Fixpoint handleAll (events : list InputEvent) (this : t)
    (numberAtom : NumberAtom) : result (t * NumberAtom * list Event) :=
  match events with
  | [] => Ok (this, numberAtom, [])
  | event :: rest =>
      match handle event this numberAtom with
      | Throw e => Throw e
      | Ok (this1, atom1, trace1) =>
          match handleAll rest this1 atom1 with
          | Throw e => Throw e
          | Ok (this2, atom2, trace2) => Ok (this2, atom2, (trace1 ++ trace2)%list)
          end
      end
  end.

End Cell.

(** How many of the events are releases ([up]). *)
Fixpoint releases (events : list InputEvent) : nat :=
  match events with
  | [] => 0%nat
  | up :: rest => S (releases rest)
  | _ :: rest => releases rest
  end.

End PeriodicTableCell.

(** * Properties *)

(** ** Keys and number-to-string conversion *)

Lemma to_int_proper (n : Z) :
  Z.to_int n <> Decimal.Pos Decimal.Nil /\ Z.to_int n <> Decimal.Neg Decimal.Nil.
Proof.
  destruct n as [|q|q]; simpl; split; try discriminate;
    intros H; injection H as H; revert H; apply DecimalPos.Unsigned.to_uint_nonnil.
Qed.

Lemma decimal_inj (m n : Z) : Js.decimal m = Js.decimal n -> m = n.
Proof.
  unfold Js.decimal. intros H.
  apply (f_equal NilZero.int_of_string) in H.
  destruct (to_int_proper m) as [Hm1 Hm2].
  destruct (to_int_proper n) as [Hn1 Hn2].
  rewrite !NilZero.isi in H by assumption.
  injection H as H. now apply DecimalZ.to_int_inj.
Qed.

(** Exponent notation takes at least three characters. *)
Lemma exponential_long (x : Z) :
  exists c1 c2 c3 rest,
    Js.exponential x = String c1 (String c2 (String c3 rest)).
Proof.
  unfold Js.exponential.
  destruct (Js.shortest _ _ x) as [s e].
  destruct (Js.decimal s) as [|c [|c' rest]]; repeat eexists.
Qed.

(** A key of one or two characters is the string of one number only. *)
Lemma ToString_eqb_false (n i : Z) :
  (String.length (Js.decimal i) <= 2)%nat ->
  n <> i -> String.eqb (Js.ToString n) (Js.decimal i) = false.
Proof.
  intros Hlen Hne. apply String.eqb_neq. intros H. unfold Js.ToString in H.
  destruct (Z.abs n <? 10 ^ 21)%Z.
  - apply Hne. now apply decimal_inj.
  - destruct (n <? 0)%Z.
    + destruct (exponential_long (- n)) as (c1 & c2 & c3 & rest & E).
      rewrite E in H. rewrite <- H in Hlen. simpl in Hlen. lia.
    + destruct (exponential_long n) as (c1 & c2 & c3 & rest & E).
      rewrite E in H. rewrite <- H in Hlen. simpl in Hlen. lia.
Qed.

(** Only the counts 1 to 10 are keys of the table. *)
Lemma get_outside_table (n : Z) :
  (n < 1 \/ 10 < n)%Z ->
  Js.get IsotopeElectronCloudView.mapElectronCountToRadius (Js.ToString n) = None.
Proof.
  intros Hn.
  unfold IsotopeElectronCloudView.mapElectronCountToRadius, Js.get.
  change "1"%string with (Js.decimal 1).
  change "2"%string with (Js.decimal 2).
  change "3"%string with (Js.decimal 3).
  change "4"%string with (Js.decimal 4).
  change "5"%string with (Js.decimal 5).
  change "6"%string with (Js.decimal 6).
  change "7"%string with (Js.decimal 7).
  change "8"%string with (Js.decimal 8).
  change "9"%string with (Js.decimal 9).
  change "10"%string with (Js.decimal 10).
  rewrite !ToString_eqb_false by (simpl; lia).
  reflexivity.
Qed.

(** The loop of [getElectronShellDiameter] ends with two keys, not two
    radii. *)
Lemma shellRadiusBounds_are_keys :
  IsotopeElectronCloudView.minShellRadius = Js.Str "1" /\
  IsotopeElectronCloudView.maxShellRadius = Js.Str "9".
Proof. split; vm_compute; reflexivity. Qed.

(** ** The electron cloud *)

Section CloudProperties.

Import IsotopeElectronCloudView.
Open Scope float_scope.

(** C6.  The table is exactly
    1:38, 2:32, 3:100.5, 4:87.3, 5:82, 6:77, 7:75, 8:73, 9:71, 10:69;
    the products 134 * 0.75 and 90 * 0.97 written in the source are the
    binary64 numbers 100.5 and 87.3. *)
Theorem mapElectronCountToRadius_exact :
  mapElectronCountToRadius =
    [ ("1", 38); ("2", 32); ("3", 100.5); ("4", 87.3); ("5", 82);
      ("6", 77); ("7", 75); ("8", 73); ("9", 71); ("10", 69) ]%string /\
  134 * 0.75 = 100.5 /\
  90 * 0.97 = 87.3 /\
  Js.get mapElectronCountToRadius (Js.ToString 3) = Some 100.5 /\
  Js.get mapElectronCountToRadius (Js.ToString 4) = Some 87.3.
Proof. repeat split; reflexivity. Qed.

(** C1, at the input 6.  The code returns 182.5 for six electrons, which is
    not between 40 and 55: its loop leaves the keys "1" and "9" in
    [minShellRadius] and [maxShellRadius], where the claim rescales from
    the least and greatest table values 32 and 100.5 and lands strictly
    between 40 and 55. *)
Theorem getElectronShellDiameter_six_outside_range :
  (forall assert, getElectronShellDiameter assert 6 = Ok 182.5) /\
  (182.5 <? 55) = false /\
  minShellRadius = Js.Str "1" /\ maxShellRadius = Js.Str "9" /\
  spec_rawMin = 32 /\ spec_rawMax = 100.5 /\
  exists r, spec_radiusFor 6 = Some r /\ (40 <? r) = true /\ (r <? 55) = true.
Proof.
  split; [intros [|]; reflexivity|].
  split; [reflexivity|].
  split; [reflexivity|].
  split; [reflexivity|].
  split; [reflexivity|].
  split; [reflexivity|].
  eexists. split; [reflexivity|]. split; reflexivity.
Qed.

(** C5.  For zero electrons the cloud gets the fixed radius 1E-5, which is
    greater than zero, whatever the transform and the previous state of the
    node. *)
Theorem updateNode_zero_radius
    (modelToViewDeltaX : float -> float) (assert : bool) (self : Circle) :
  updateNode modelToViewDeltaX assert 0 self
    = Ok {| radius := 1E-5; fill := transparent |} /\
  (0 <? 1E-5) = true /\
  (1E-5 =? 0) = false.
Proof. repeat split; reflexivity. Qed.

(** C7.  Above ten electrons the assertion of [getElectronShellDiameter]
    fails when assertions are enabled, and the function returns 0 when they
    are not. *)
Theorem getElectronShellDiameter_above_max (numElectrons : Z) :
  (10 < numElectrons)%Z ->
  (exists message,
     getElectronShellDiameter true numElectrons
       = Throw (AssertionError message)) /\
  getElectronShellDiameter false numElectrons = Ok 0.
Proof.
  intros Hn. unfold getElectronShellDiameter.
  rewrite get_outside_table by lia.
  unfold MAX_ELECTRONS.
  destruct (Z.leb_spec numElectrons 10) as [Hle|Hgt]; [lia|].
  split; [eexists; reflexivity|reflexivity].
Qed.

Lemma getElectronShellDiameter_above_max_witness :
  (10 < 11)%Z /\
  (exists message,
     getElectronShellDiameter true 11 = Throw (AssertionError message)) /\
  getElectronShellDiameter false 11 = Ok 0.
Proof.
  split; [reflexivity|].
  apply (getElectronShellDiameter_above_max 11). reflexivity.
Defined.

End CloudProperties.

(** ** The atom: one property at a time *)

Lemma sameFlags_live (a a' : NumberAtom) : sameFlags a a' -> live a -> live a'.
Proof.
  intros (Hb & Hd & He) (H1 & H2 & H3 & H4 & H5 & H6 & H7).
  pose proof (Hb Proton) as B1. pose proof (Hb Neutron) as B2.
  pose proof (Hb Electron) as B3. pose proof (Hd Charge) as D1.
  pose proof (Hd MassNumber) as D2. pose proof (Hd ParticleCount) as D3.
  simpl in *. unfold live. repeat split; congruence.
Qed.

Lemma new_NumberAtom_live (options : Options) : live (new_NumberAtom options).
Proof. unfold live; simpl; repeat split; reflexivity. Qed.

Lemma new_NumberAtom_consistent (options : Options) :
  consistent (new_NumberAtom options).
Proof. unfold consistent; simpl; repeat split; reflexivity. Qed.

Ltac split_atom a :=
  let pv := fresh "pv" in let pd := fresh "pd" in
  let nv := fresh "nv" in let nd := fresh "nd" in
  let ev := fresh "ev" in let ed := fresh "ed" in
  let cv := fresh "cv" in let cd := fresh "cd" in
  let mv := fresh "mv" in let md := fresh "md" in
  let tv := fresh "tv" in let td := fresh "td" in
  let ud := fresh "ud" in
  destruct a as [[pv pd] [nv nd] [ev ed] [cv cd] [mv md] [tv td] [ud]].

Ltac unfold_methods :=
  unfold setBase, recompute, when, notify, ret, bind, emit, dependsOn,
    withBase, withDerived, withValue, derivation, baseProperty,
    derivedProperty, protonCount, neutronCount, electronCount; simpl.

Ltac split_tests :=
  repeat match goal with
         | |- context [Z.eqb ?x ?y] =>
             destruct (Z.eqb_spec x y); simpl
         end.

(** A [set] on a count property always returns: it stores the value, leaves
    the other two counts and every disposal flag alone, and never fires
    [atomUpdated]. *)
Lemma setBase_total (b : BaseField) (v : Z) (a : NumberAtom) :
  exists a' t,
    setBase b v a = Ok (tt, a', t) /\
    sameFlags a a' /\
    value (baseProperty b a') = v /\
    (forall b', b' <> b ->
       value (baseProperty b' a') = value (baseProperty b' a)) /\
    emissions t = 0%nat.
Proof.
  split_atom a.
  destruct b; unfold_methods;
    destruct pd, nd, ed, cd, md, td; simpl; split_tests;
    eexists; eexists; (split; [reflexivity|]);
    (split;
     [ unfold sameFlags;
       split; [ intros [| |]; reflexivity
              | split; [ intros [| |]; reflexivity | reflexivity ] ]
     | split; [ simpl; congruence
              | split; [ intros [| |] Hb; simpl; congruence
                       | reflexivity ] ] ]).
Qed.

(** On a live atom a [set] keeps the cached derived values in step. *)
Lemma setBase_consistent (b : BaseField) (v : Z) (a a' : NumberAtom)
    (t : list Event) :
  live a -> consistent a -> setBase b v a = Ok (tt, a', t) -> consistent a'.
Proof.
  split_atom a.
  intros (H1 & H2 & H3 & H4 & H5 & H6 & H7) (C1 & C2 & C3).
  unfold derivation, protonCount, neutronCount, electronCount in *.
  simpl in *. subst.
  destruct b; unfold_methods; split_tests;
    intros H; injection H as <- <-;
    unfold consistent, derivation, protonCount, neutronCount, electronCount;
    simpl; repeat split; congruence.
Qed.

(** Storing the value a property already has does nothing at all. *)
Lemma setBase_same_value (b : BaseField) (a : NumberAtom) :
  setBase b (value (baseProperty b a)) a = Ok (tt, a, []).
Proof. unfold setBase. now rewrite Z.eqb_refl. Qed.

Lemma bind_Ok {A B} (m : M A) (k : A -> M B) (a a1 a2 : NumberAtom)
    (x : A) (y : B) (t1 t2 : list Event) :
  m a = Ok (x, a1, t1) -> k x a1 = Ok (y, a2, t2) ->
  bind m k a = Ok (y, a2, t1 ++ t2).
Proof. intros H1 H2. unfold bind. now rewrite H1, H2. Qed.

Lemma emissions_app (t1 t2 : list Event) :
  emissions (t1 ++ t2) = (emissions t1 + emissions t2)%nat.
Proof. unfold emissions. now rewrite filter_app, length_app. Qed.

Lemma emit_Ok (a : NumberAtom) : emit a = Ok (tt, a, emitted a).
Proof. unfold emit, emitted. now destruct (emitterIsDisposed (atomUpdated a)). Qed.

(** [setSubAtomicParticleCount] always returns, on any atom: the three
    [set]s run in the order proton, electron, neutron, and the emit comes
    last. *)
Lemma setSubAtomicParticleCount_steps (p n e : Z) (a : NumberAtom) :
  exists a1 a2 a3 t1 t2 t3,
    setBase Proton p a = Ok (tt, a1, t1) /\
    setBase Electron e a1 = Ok (tt, a2, t2) /\
    setBase Neutron n a2 = Ok (tt, a3, t3) /\
    setCountProperties p n e a = Ok (tt, a3, t1 ++ t2 ++ t3) /\
    setSubAtomicParticleCount p n e a
      = Ok (tt, a3, (t1 ++ t2 ++ t3) ++ emitted a3) /\
    sameFlags a a1 /\ sameFlags a a2 /\ sameFlags a a3 /\
    protonCount a3 = p /\ neutronCount a3 = n /\ electronCount a3 = e /\
    emissions (t1 ++ t2 ++ t3) = 0%nat.
Proof.
  destruct (setBase_total Proton p a) as (a1 & t1 & E1 & F1 & V1 & O1 & N1).
  destruct (setBase_total Electron e a1) as (a2 & t2 & E2 & F2 & V2 & O2 & N2).
  destruct (setBase_total Neutron n a2) as (a3 & t3 & E3 & F3 & V3 & O3 & N3).
  exists a1, a2, a3, t1, t2, t3.
  split; [exact E1|]. split; [exact E2|]. split; [exact E3|].
  split.
  { unfold setCountProperties.
    eapply bind_Ok; [exact E1|]. eapply bind_Ok; [exact E2|exact E3]. }
  split.
  { unfold setSubAtomicParticleCount.
    rewrite <- !app_assoc.
    eapply bind_Ok; [exact E1|]. eapply bind_Ok; [exact E2|].
    eapply bind_Ok; [exact E3|]. apply emit_Ok. }
  split; [exact F1|].
  destruct F1 as (B1 & D1 & U1), F2 as (B2 & D2 & U2), F3 as (B3 & D3 & U3).
  split.
  { unfold sameFlags. split; [|split].
    - intros b. now rewrite B2, B1.
    - intros d. now rewrite D2, D1.
    - now rewrite U2, U1. }
  split.
  { unfold sameFlags. split; [|split].
    - intros b. now rewrite B3, B2, B1.
    - intros d. now rewrite D3, D2, D1.
    - now rewrite U3, U2, U1. }
  pose proof (O2 Proton ltac:(discriminate)) as P2.
  pose proof (O3 Proton ltac:(discriminate)) as P3.
  pose proof (O3 Electron ltac:(discriminate)) as Q3.
  simpl in *. unfold protonCount, neutronCount, electronCount.
  split; [congruence|]. split; [congruence|]. split; [congruence|].
  rewrite !emissions_app. lia.
Qed.

Lemma live_emitted (a : NumberAtom) : live a -> emitted a = [AtomUpdated].
Proof.
  intros (_ & _ & _ & _ & _ & _ & H). unfold emitted. now rewrite H.
Qed.

(** Calls of [setSubAtomicParticleCount] keep a live, consistent atom live
    and consistent. *)
Lemma updatesFrom_invariant (a0 a : NumberAtom) :
  live a0 -> consistent a0 -> updatesFrom a0 a -> live a /\ consistent a.
Proof.
  intros L0 C0 U.
  induction U as [|a a' p n e t U IH E]; [now split|].
  destruct IH as [L C].
  destruct (setSubAtomicParticleCount_steps p n e a)
    as (a1 & a2 & a3 & t1 & t2 & t3 & E1 & E2 & E3 & _ & ES & F1 & F2 & F3 & _).
  rewrite ES in E. injection E as <- _.
  split.
  - exact (sameFlags_live _ _ F3 L).
  - pose proof (sameFlags_live _ _ F1 L) as L1.
    pose proof (sameFlags_live _ _ F2 L) as L2.
    pose proof (setBase_consistent _ _ _ _ _ L C E1) as C1.
    pose proof (setBase_consistent _ _ _ _ _ L1 C1 E2) as C2.
    exact (setBase_consistent _ _ _ _ _ L2 C2 E3).
Qed.

(** ** The atom: the methods *)

Lemma round_exact (z : Z) : Z.abs z <= 2 ^ 53 -> Js.round z = z.
Proof.
  intros H. unfold Js.round.
  destruct (Z.leb_spec (Z.abs z) (2 ^ 53)); [reflexivity|lia].
Qed.

(** [Js.plus] and [Js.minus] against the addition and subtraction of the
    primitive binary64 numbers, on pairs around and beyond 2^53. *)
Lemma plus_minus_binary64_samples :
  Forall (fun xy =>
            Js.to_Z (Js.of_Z (fst xy) + Js.of_Z (snd xy))%float
              = Js.plus (fst xy) (snd xy) /\
            Js.to_Z (Js.of_Z (fst xy) - Js.of_Z (snd xy))%float
              = Js.minus (fst xy) (snd xy))
    [ (6, 7); (2 ^ 53, 1); (2 ^ 53, 2); (2 ^ 53, 3); (2 ^ 53 - 1, 1);
      (2 ^ 54, 1); (2 ^ 54, 2); (2 ^ 54, 3); (2 ^ 54, 6); (2 ^ 54, -1);
      (- 2 ^ 53, -1); (- 2 ^ 53, 1); (2 ^ 60, 12345); (2 ^ 80, 2 ^ 27);
      (2 ^ 80, 3 * 2 ^ 27); (10 ^ 21, 65537); (1, - 2 ^ 53); (0, 2 ^ 53) ].
Proof. repeat constructor; vm_compute; reflexivity. Qed.

Lemma safe_consistent_exact (a : NumberAtom) :
  withinSafeIntegers a -> consistent a -> exactlyDerived a.
Proof.
  intros (Hp & Hn & He & Hs) (C1 & C2 & C3).
  unfold exactlyDerived. rewrite C1, C2, C3.
  unfold derivation, Js.plus, Js.minus.
  change (2 ^ 53) with 9007199254740992 in Hs.
  assert (E1 : Js.round (protonCount a + neutronCount a)
               = protonCount a + neutronCount a).
  { apply round_exact. change (2 ^ 53) with 9007199254740992. lia. }
  rewrite E1.
  rewrite !round_exact by (change (2 ^ 53) with 9007199254740992; lia).
  repeat split.
Qed.

(** C2, as the code has it.  The derivations add and subtract JavaScript
    numbers.  An atom created with non-negative counts p, n, e whose sum is at
    most 2^53 has charge p - e, mass number p + n and particle count
    p + n + e; after every update that returned, the three derived values
    are the results of the derivations on the current counts, and these are
    the exact p - e, p + n and p + n + e whenever the current counts are
    again non-negative with a sum of at most 2^53. *)
Theorem derived_values_follow_counts (p n e : Z) :
  0 <= p -> 0 <= n -> 0 <= e -> p + n + e <= 2 ^ 53 ->
  value (chargeProperty (new_NumberAtom (withCounts p n e))) = p - e /\
  value (massNumberProperty (new_NumberAtom (withCounts p n e))) = p + n /\
  value (particleCountProperty (new_NumberAtom (withCounts p n e)))
    = p + n + e /\
  forall a, updatesFrom (new_NumberAtom (withCounts p n e)) a ->
    consistent a /\ (withinSafeIntegers a -> exactlyDerived a).
Proof.
  intros Hp Hn He Hs.
  assert (X : exactlyDerived (new_NumberAtom (withCounts p n e))).
  { apply safe_consistent_exact; [|apply new_NumberAtom_consistent].
    unfold withinSafeIntegers, protonCount, neutronCount, electronCount.
    simpl. auto. }
  destruct X as (X1 & X2 & X3).
  split; [exact X1|]. split; [exact X2|]. split; [exact X3|].
  intros a U.
  destruct (updatesFrom_invariant (new_NumberAtom (withCounts p n e)) a
              (new_NumberAtom_live _) (new_NumberAtom_consistent _) U)
    as [_ C].
  split; [exact C|]. intros S. now apply safe_consistent_exact.
Qed.

Lemma derived_values_follow_counts_witness :
  (0 <= 6 /\ 0 <= 6 /\ 0 <= 6 /\ 6 + 6 + 6 <= 2 ^ 53) /\
  value (chargeProperty (new_NumberAtom (withCounts 6 6 6))) = 6 - 6 /\
  value (massNumberProperty (new_NumberAtom (withCounts 6 6 6))) = 6 + 6 /\
  value (particleCountProperty (new_NumberAtom (withCounts 6 6 6)))
    = 6 + 6 + 6 /\
  forall a, updatesFrom (new_NumberAtom (withCounts 6 6 6)) a ->
    consistent a /\ (withinSafeIntegers a -> exactlyDerived a).
Proof.
  split; [repeat split; vm_compute; discriminate|].
  apply (derived_values_follow_counts 6 6 6); vm_compute; discriminate.
Defined.

(** C2, as stated, fails: an atom created with 2^53 protons and one neutron
    has mass number 2^53 and particle count 2^53, not 2^53 + 1, because the
    binary64 sum of 2^53 and 1 is 2^53. *)
Lemma mass_number_beyond_safe_integers :
  (0 <= 2 ^ 53 /\ 0 <= 1 /\ 0 <= 0) /\
  value (massNumberProperty (new_NumberAtom (withCounts (2 ^ 53) 1 0)))
    = 2 ^ 53 /\
  value (particleCountProperty (new_NumberAtom (withCounts (2 ^ 53) 1 0)))
    = 2 ^ 53 /\
  2 ^ 53 <> 2 ^ 53 + 1 /\
  Js.of_Z (2 ^ 53 + 1) = Js.of_Z (2 ^ 53).
Proof.
  split; [repeat split; vm_compute; discriminate|].
  split; [vm_compute; reflexivity|]. split; [vm_compute; reflexivity|].
  split; [vm_compute; discriminate|vm_compute; reflexivity].
Qed.

(** C3, as the code has it.  [setSubAtomicParticleCount] validates nothing:
    on a live atom it returns for all integer arguments, negative ones
    included, and the three counts become the arguments. *)
Theorem setSubAtomicParticleCount_accepts_all (a : NumberAtom) (p n e : Z) :
  live a ->
  exists a' t,
    setSubAtomicParticleCount p n e a = Ok (tt, a', t) /\
    protonCount a' = p /\ neutronCount a' = n /\ electronCount a' = e.
Proof.
  intros _.
  destruct (setSubAtomicParticleCount_steps p n e a)
    as (a1 & a2 & a3 & t1 & t2 & t3 & _ & _ & _ & _ & ES & _ & _ & _
        & Hp & Hn & He & _).
  exists a3, ((t1 ++ t2 ++ t3) ++ emitted a3). now repeat split.
Qed.

Lemma setSubAtomicParticleCount_accepts_all_witness :
  live (new_NumberAtom (withCounts 0 0 0)) /\
  exists a' t,
    setSubAtomicParticleCount (-1) 0 0 (new_NumberAtom (withCounts 0 0 0))
      = Ok (tt, a', t) /\
    protonCount a' = -1 /\ neutronCount a' = 0 /\ electronCount a' = 0.
Proof.
  split; [unfold live; simpl; repeat split; reflexivity|].
  apply (setSubAtomicParticleCount_accepts_all
           (new_NumberAtom (withCounts 0 0 0)) (-1) 0 0).
  unfold live; simpl; repeat split; reflexivity.
Defined.

(** C3, as stated, fails: [setSubAtomicParticleCount( -1, 0, 0 )] on a fresh
    atom returns, and the proton count has become -1. *)
Lemma setSubAtomicParticleCount_negative_not_rejected :
  live (new_NumberAtom (withCounts 0 0 0)) /\
  setSubAtomicParticleCount (-1) 0 0 (new_NumberAtom (withCounts 0 0 0))
    = Ok (tt,
          {| protonCountProperty := mkProperty (-1) false;
             neutronCountProperty := mkProperty 0 false;
             electronCountProperty := mkProperty 0 false;
             chargeProperty := mkProperty (-1) false;
             massNumberProperty := mkProperty (-1) false;
             particleCountProperty := mkProperty (-1) false;
             atomUpdated := mkEmitter false |},
          [ DerivedChanged Charge (-1) 0;
            DerivedChanged MassNumber (-1) 0;
            DerivedChanged ParticleCount (-1) 0;
            BaseChanged Proton (-1) 0;
            AtomUpdated ]).
Proof.
  split; [unfold live; simpl; repeat split; reflexivity|reflexivity].
Qed.

(** C4.  On a live atom [setSubAtomicParticleCount] replaces the three
    counts and fires [atomUpdated] exactly once, as the last event of the
    call: the trace is the trace of the three [set]s, in which [atomUpdated]
    does not occur, followed by the one emission. *)
Theorem setSubAtomicParticleCount_emits_once (a : NumberAtom) (p n e : Z) :
  live a ->
  exists a' t,
    setCountProperties p n e a = Ok (tt, a', t) /\
    protonCount a' = p /\ neutronCount a' = n /\ electronCount a' = e /\
    emissions t = 0%nat /\
    setSubAtomicParticleCount p n e a = Ok (tt, a', t ++ [AtomUpdated]) /\
    emissions (t ++ [AtomUpdated]) = 1%nat.
Proof.
  intros L.
  destruct (setSubAtomicParticleCount_steps p n e a)
    as (a1 & a2 & a3 & t1 & t2 & t3 & _ & _ & _ & EC & ES & _ & _ & F3
        & Hp & Hn & He & N).
  rewrite (live_emitted a3 (sameFlags_live _ _ F3 L)) in ES.
  exists a3, (t1 ++ t2 ++ t3).
  repeat (split; [assumption|]).
  rewrite emissions_app, N. reflexivity.
Qed.

Lemma setSubAtomicParticleCount_emits_once_witness :
  live (new_NumberAtom (withCounts 0 0 0)) /\
  exists a' t,
    setCountProperties 6 6 6 (new_NumberAtom (withCounts 0 0 0))
      = Ok (tt, a', t) /\
    protonCount a' = 6 /\ neutronCount a' = 6 /\ electronCount a' = 6 /\
    emissions t = 0%nat /\
    setSubAtomicParticleCount 6 6 6 (new_NumberAtom (withCounts 0 0 0))
      = Ok (tt, a', t ++ [AtomUpdated]) /\
    emissions (t ++ [AtomUpdated]) = 1%nat.
Proof.
  split; [unfold live; simpl; repeat split; reflexivity|].
  apply (setSubAtomicParticleCount_emits_once
           (new_NumberAtom (withCounts 0 0 0)) 6 6 6).
  unfold live; simpl; repeat split; reflexivity.
Defined.

(** C10.  Calling [setSubAtomicParticleCount] on a live atom with the counts
    it already has changes nothing and still fires [atomUpdated], once: the
    emission does not depend on a count having changed. *)
Theorem setSubAtomicParticleCount_same_counts_emits (a : NumberAtom) :
  live a ->
  setSubAtomicParticleCount (protonCount a) (neutronCount a) (electronCount a) a
    = Ok (tt, a, [AtomUpdated]) /\
  emissions [AtomUpdated] = 1%nat.
Proof.
  intros L. split; [|reflexivity].
  unfold setSubAtomicParticleCount.
  change [AtomUpdated] with ([] ++ [] ++ [] ++ [AtomUpdated]).
  eapply bind_Ok; [exact (setBase_same_value Proton a)|].
  eapply bind_Ok; [exact (setBase_same_value Electron a)|].
  eapply bind_Ok; [exact (setBase_same_value Neutron a)|].
  rewrite emit_Ok. now rewrite (live_emitted a L).
Qed.

Lemma setSubAtomicParticleCount_same_counts_emits_witness :
  live (new_NumberAtom (withCounts 6 6 6)) /\
  setSubAtomicParticleCount 6 6 6 (new_NumberAtom (withCounts 6 6 6))
    = Ok (tt, new_NumberAtom (withCounts 6 6 6), [AtomUpdated]) /\
  emissions [AtomUpdated] = 1%nat.
Proof.
  split; [unfold live; simpl; repeat split; reflexivity|].
  apply (setSubAtomicParticleCount_same_counts_emits
           (new_NumberAtom (withCounts 6 6 6))).
  unfold live; simpl; repeat split; reflexivity.
Defined.

(** C8, as the code has it.  [dispose] tears down charge, mass number and
    particle count, then the three count properties, then the emitter; the
    atom keeps no record of having been disposed, and a later
    [setSubAtomicParticleCount] is not rejected. *)
Theorem dispose_derived_then_base (a : NumberAtom) :
  exists a',
    dispose a
      = Ok (tt, a',
            [ DerivedDisposed Charge; DerivedDisposed MassNumber;
              DerivedDisposed ParticleCount;
              BaseDisposed Proton; BaseDisposed Neutron; BaseDisposed Electron;
              EmitterDisposed ]) /\
    forall p n e, exists a'' t,
      setSubAtomicParticleCount p n e a' = Ok (tt, a'', t).
Proof.
  eexists. split; [reflexivity|].
  intros p n e.
  match goal with
  | |- exists a'' t, setSubAtomicParticleCount _ _ _ ?x = _ =>
      destruct (setSubAtomicParticleCount_steps p n e x)
        as (a1 & a2 & a3 & t1 & t2 & t3 & _ & _ & _ & _ & ES & _)
  end.
  eexists; eexists; exact ES.
Qed.

(** C8, as stated, fails: after [dispose], [setSubAtomicParticleCount( 1, 1, 1 )]
    returns instead of failing, and the counts read 1, 1, 1. *)
Lemma setSubAtomicParticleCount_after_dispose_returns :
  dispose (new_NumberAtom (withCounts 0 0 0))
    = Ok (tt,
          {| protonCountProperty := mkProperty 0 true;
             neutronCountProperty := mkProperty 0 true;
             electronCountProperty := mkProperty 0 true;
             chargeProperty := mkProperty 0 true;
             massNumberProperty := mkProperty 0 true;
             particleCountProperty := mkProperty 0 true;
             atomUpdated := mkEmitter true |},
          [ DerivedDisposed Charge; DerivedDisposed MassNumber;
            DerivedDisposed ParticleCount;
            BaseDisposed Proton; BaseDisposed Neutron; BaseDisposed Electron;
            EmitterDisposed ]) /\
  setSubAtomicParticleCount 1 1 1
      {| protonCountProperty := mkProperty 0 true;
         neutronCountProperty := mkProperty 0 true;
         electronCountProperty := mkProperty 0 true;
         chargeProperty := mkProperty 0 true;
         massNumberProperty := mkProperty 0 true;
         particleCountProperty := mkProperty 0 true;
         atomUpdated := mkEmitter true |}
    = Ok (tt,
          {| protonCountProperty := mkProperty 1 true;
             neutronCountProperty := mkProperty 1 true;
             electronCountProperty := mkProperty 1 true;
             chargeProperty := mkProperty 0 true;
             massNumberProperty := mkProperty 0 true;
             particleCountProperty := mkProperty 0 true;
             atomUpdated := mkEmitter true |},
          []).
Proof. split; reflexivity. Qed.

(** C9.  [equals] compares the three counts and nothing else: it is
    reflexive and symmetric, it holds exactly when the proton, neutron and
    electron counts are pairwise equal, and (6,6,6) differs from (6,6,7)
    although both have mass number 12. *)
Theorem equals_compares_counts (a b : NumberAtom) :
  equals a a = true /\
  equals a b = equals b a /\
  (equals a b = true <->
     protonCount a = protonCount b /\
     neutronCount a = neutronCount b /\
     electronCount a = electronCount b) /\
  equals (new_NumberAtom (withCounts 6 6 6)) (new_NumberAtom (withCounts 6 6 6))
    = true /\
  equals (new_NumberAtom (withCounts 6 6 6)) (new_NumberAtom (withCounts 6 6 7))
    = false /\
  value (massNumberProperty (new_NumberAtom (withCounts 6 6 6)))
    = value (massNumberProperty (new_NumberAtom (withCounts 6 6 7))).
Proof.
  unfold equals.
  split; [now rewrite !Z.eqb_refl|].
  split.
  { now rewrite (Z.eqb_sym (protonCount a)), (Z.eqb_sym (neutronCount a)),
      (Z.eqb_sym (electronCount a)). }
  split.
  { rewrite !andb_true_iff, !Z.eqb_eq. tauto. }
  repeat split; reflexivity.
Qed.

(** * Further properties of the sources *)

(** ** The electron cloud: every electron count *)

Section CloudEdges.

Import IsotopeElectronCloudView.
Open Scope float_scope.

Lemma supported_count_cases (n : Z) :
  (1 <= n <= 10)%Z ->
  n = 1%Z \/ n = 2%Z \/ n = 3%Z \/ n = 4%Z \/ n = 5%Z \/
  n = 6%Z \/ n = 7%Z \/ n = 8%Z \/ n = 9%Z \/ n = 10%Z.
Proof. lia. Qed.

Lemma get_inside_table (n : Z) :
  (1 <= n <= 10)%Z ->
  exists v, Js.get mapElectronCountToRadius (Js.ToString n) = Some v.
Proof.
  intros Hn.
  destruct (supported_count_cases n Hn)
    as [->|[->|[->|[->|[->|[->|[->|[->|[->| ->]]]]]]]]];
    eexists; reflexivity.
Qed.

(** X1.  [getElectronShellDiameter] throws exactly when assertions are enabled
    and the electron count is above ten. *)
Theorem getElectronShellDiameter_throws_iff (assert : bool) (numElectrons : Z) :
  (exists e, getElectronShellDiameter assert numElectrons = Throw e) <->
  assert = true /\ (10 < numElectrons)%Z.
Proof.
  split.
  - intros [e He]. unfold getElectronShellDiameter in He.
    destruct (Js.get mapElectronCountToRadius (Js.ToString numElectrons));
      [discriminate|].
    destruct assert; simpl in He; [|discriminate].
    unfold MAX_ELECTRONS in He.
    destruct (Z.leb_spec numElectrons 10); simpl in He; [discriminate|].
    split; [reflexivity|assumption].
  - intros [-> Hn]. unfold getElectronShellDiameter.
    rewrite get_outside_table by lia. unfold MAX_ELECTRONS.
    destruct (Z.leb_spec numElectrons 10); [lia|]. simpl. eexists; reflexivity.
Qed.

(** X2.  Zero and every negative electron count give the diameter 0, with or
    without assertions: the assertion only guards the upper end. *)
Theorem getElectronShellDiameter_below_one (assert : bool) (numElectrons : Z) :
  (numElectrons < 1)%Z ->
  getElectronShellDiameter assert numElectrons = Ok 0.
Proof.
  intros Hn. unfold getElectronShellDiameter.
  rewrite get_outside_table by lia. unfold MAX_ELECTRONS.
  destruct (Z.leb_spec numElectrons 10); [|lia].
  simpl. now rewrite andb_false_r.
Qed.

Lemma getElectronShellDiameter_below_one_witness :
  (-3 < 1)%Z /\ getElectronShellDiameter true (-3) = Ok 0.
Proof.
  split; [reflexivity|].
  apply (getElectronShellDiameter_below_one true (-3)). reflexivity.
Defined.

(** X3.  For one to ten electrons the function returns, in either mode, the table
    entry [v] sent through [40 + (v - 1) / 8 * 15], and that is above the
    upper bound 55 the compression aims at. *)
Theorem getElectronShellDiameter_supported (assert : bool) (numElectrons : Z) :
  (1 <= numElectrons <= 10)%Z ->
  exists v,
    Js.get mapElectronCountToRadius (Js.ToString numElectrons) = Some v /\
    getElectronShellDiameter assert numElectrons
      = Ok (40 + (v - 1) / 8 * 15) /\
    (maxChangedRadius <? 40 + (v - 1) / 8 * 15) = true.
Proof.
  intros Hn.
  destruct (supported_count_cases numElectrons Hn)
    as [->|[->|[->|[->|[->|[->|[->|[->|[->| ->]]]]]]]]];
    eexists; (split; [reflexivity|]); split; reflexivity.
Qed.

Lemma getElectronShellDiameter_supported_witness :
  (1 <= 2 <= 10)%Z /\
  exists v,
    Js.get mapElectronCountToRadius (Js.ToString 2) = Some v /\
    getElectronShellDiameter true 2 = Ok (40 + (v - 1) / 8 * 15) /\
    (maxChangedRadius <? 40 + (v - 1) / 8 * 15) = true.
Proof.
  split; [lia|].
  apply (getElectronShellDiameter_supported true 2). lia.
Defined.

End CloudEdges.

(** ** The electron cloud: what the view follows *)

Lemma protonChanges_app (t1 t2 : list Event) :
  protonChanges (t1 ++ t2) = (protonChanges t1 ++ protonChanges t2)%list.
Proof.
  induction t1 as [|ev t1 IH]; [reflexivity|].
  destruct ev as [d x y|[| |] x y| | | |]; simpl; now rewrite IH.
Qed.

(** The listeners of [protonCountProperty] hear of a [set] only when it is
    the proton count that is set, to a new value, on a property that has not
    been disposed. *)
Lemma setBase_protonChanges (b : BaseField) (v : Z) (a a' : NumberAtom)
    (t : list Event) :
  setBase b v a = Ok (tt, a', t) ->
  protonChanges t =
    match b with
    | Proton =>
        if isDisposed (protonCountProperty a) || (protonCount a =? v)
        then [] else [v]
    | _ => []
    end.
Proof.
  split_atom a.
  destruct b; unfold_methods;
    destruct pd, nd, ed, cd, md, td; simpl; split_tests;
    intros H; injection H as <- <-; reflexivity.
Qed.

Lemma emitted_protonChanges (a : NumberAtom) : protonChanges (emitted a) = [].
Proof. unfold emitted. now destruct (emitterIsDisposed (atomUpdated a)). Qed.

Lemma setSubAtomicParticleCount_protonChanges (p n e : Z) (a a' : NumberAtom)
    (t : list Event) :
  setSubAtomicParticleCount p n e a = Ok (tt, a', t) ->
  protonCount a' = p /\
  protonChanges t =
    if isDisposed (protonCountProperty a) || (protonCount a =? p)
    then [] else [p].
Proof.
  intros E.
  destruct (setSubAtomicParticleCount_steps p n e a)
    as (a1 & a2 & a3 & t1 & t2 & t3 & E1 & E2 & E3 & _ & ES & _ & _ & _
        & Hp & _).
  rewrite ES in E. injection E as <- <-.
  split; [exact Hp|].
  rewrite !protonChanges_app, emitted_protonChanges.
  rewrite (setBase_protonChanges _ _ _ _ _ E1),
    (setBase_protonChanges _ _ _ _ _ E2),
    (setBase_protonChanges _ _ _ _ _ E3).
  now rewrite !app_nil_r.
Qed.

Section CloudViewProperties.

Import IsotopeElectronCloudView.

Variable modelToViewDeltaX : float -> float.

Lemma updateNode_without_assertions (numElectrons : Z) (self : Circle) :
  exists c, updateNode modelToViewDeltaX false numElectrons self = Ok c.
Proof.
  unfold updateNode, getElectronShellDiameter.
  destruct (numElectrons =? 0)%Z; [eexists; reflexivity|].
  destruct (Js.get mapElectronCountToRadius (Js.ToString numElectrons));
    eexists; reflexivity.
Qed.

(** X4.  With assertions disabled the constructor always returns, and the cloud it
    builds is the one [updateNode] draws for the PROTON count: the call with
    the electron count is overwritten by the call the link makes. *)
Theorem new_IsotopeElectronCloudView_sized_by_protons
    (numberAtom : NumberAtom) (options_fill : Fill) :
  exists c,
    (forall self,
       updateNode modelToViewDeltaX false (protonCount numberAtom) self = Ok c) /\
    CloudView.new_IsotopeElectronCloudView modelToViewDeltaX false
      numberAtom options_fill
      = Ok {| CloudView.circle := c; CloudView.linked := true |}.
Proof.
  unfold CloudView.new_IsotopeElectronCloudView.
  destruct (updateNode_without_assertions
              (value (electronCountProperty numberAtom))
              {| radius := 1%float; fill := options_fill |}) as [c1 E1].
  destruct (updateNode_without_assertions (protonCount numberAtom) c1)
    as [c2 E2].
  exists c2. split.
  - intros self. exact E2.
  - rewrite E1. unfold protonCount in E2. now rewrite E2.
Qed.

(** X5.  A linked view that shows the cloud of the atom's proton count still does
    so after any [setSubAtomicParticleCount] on the live atom (assertions
    disabled): the cloud follows the proton count. *)
Theorem cloud_follows_proton_count
    (a a' : NumberAtom) (p n e : Z) (t : list Event)
    (view : CloudView.t) (self : Circle) :
  live a ->
  CloudView.linked view = true ->
  updateNode modelToViewDeltaX false (protonCount a) self
    = Ok (CloudView.circle view) ->
  setSubAtomicParticleCount p n e a = Ok (tt, a', t) ->
  exists view',
    CloudView.follow modelToViewDeltaX false t view = Ok view' /\
    CloudView.linked view' = true /\
    updateNode modelToViewDeltaX false (protonCount a') self
      = Ok (CloudView.circle view').
Proof.
  intros L Hl Hs E.
  destruct (setSubAtomicParticleCount_protonChanges p n e a a' t E) as [Hp Hc].
  destruct L as (Lp & _). rewrite Lp in Hc. simpl in Hc.
  unfold CloudView.follow. rewrite Hc, Hp.
  destruct (Z.eqb_spec (protonCount a) p) as [Heq|Hne].
  - exists view. split; [reflexivity|]. split; [assumption|].
    rewrite <- Heq. exact Hs.
  - simpl. rewrite Hl.
    destruct (updateNode_without_assertions p (CloudView.circle view))
      as [c Ec].
    rewrite Ec. eexists. split; [reflexivity|]. split; [reflexivity|].
    exact Ec.
Qed.

(** X6.  A call that keeps the proton count never reaches the view, whatever it
    does to the neutron and electron counts; and a disposed view follows
    nothing at all. *)
Theorem cloud_ignores_electron_count
    (assert : bool) (a a' : NumberAtom) (n e : Z) (t : list Event)
    (view : CloudView.t) :
  setSubAtomicParticleCount (protonCount a) n e a = Ok (tt, a', t) ->
  CloudView.follow modelToViewDeltaX assert t view = Ok view /\
  forall t', CloudView.follow modelToViewDeltaX assert t'
               (CloudView.dispose view) = Ok (CloudView.dispose view).
Proof.
  intros E. split.
  - destruct (setSubAtomicParticleCount_protonChanges _ n e a a' t E) as [_ Hc].
    rewrite Z.eqb_refl, orb_true_r in Hc.
    unfold CloudView.follow. now rewrite Hc.
  - intros t'. unfold CloudView.follow.
    induction (protonChanges t') as [|x xs IH]; [reflexivity|exact IH].
Qed.

End CloudViewProperties.

Lemma cloud_follows_proton_count_witness :
  exists a' t view',
    setSubAtomicParticleCount 7 7 7 (new_NumberAtom (withCounts 6 6 6))
      = Ok (tt, a', t) /\
    CloudView.follow (fun x => x) false t
      {| CloudView.circle :=
           {| IsotopeElectronCloudView.radius := 109.5%float;
              IsotopeElectronCloudView.fill :=
                IsotopeElectronCloudView.RadialGradient 0 0 0 0 0 109.5
                  [ (0%float, "rgba( 0, 0, 255, 0 )"%string);
                    (1%float, "rgba( 0, 0, 255, 0.4 )"%string) ] |};
         CloudView.linked := true |} = Ok view' /\
    CloudView.linked view' = true /\
    IsotopeElectronCloudView.updateNode (fun x => x) false (protonCount a')
      (IsotopeElectronCloudView.mkCircle 1 IsotopeElectronCloudView.transparent)
      = Ok (CloudView.circle view').
Proof.
  eexists; eexists.
  assert (E : setSubAtomicParticleCount 7 7 7 (new_NumberAtom (withCounts 6 6 6))
              = Ok (tt, new_NumberAtom (withCounts 7 7 7),
                    [ DerivedChanged Charge 1 0;
                      DerivedChanged MassNumber 13 12;
                      DerivedChanged ParticleCount 19 18;
                      BaseChanged Proton 7 6;
                      DerivedChanged Charge 0 1;
                      DerivedChanged ParticleCount 20 19;
                      BaseChanged Electron 7 6;
                      DerivedChanged MassNumber 14 13;
                      DerivedChanged ParticleCount 21 20;
                      BaseChanged Neutron 7 6;
                      AtomUpdated ])) by reflexivity.
  destruct (cloud_follows_proton_count (fun x => x)
              (new_NumberAtom (withCounts 6 6 6)) _ 7 7 7 _
              {| CloudView.circle :=
                   {| IsotopeElectronCloudView.radius := 109.5%float;
                      IsotopeElectronCloudView.fill :=
                        IsotopeElectronCloudView.RadialGradient 0 0 0 0 0 109.5
                          [ (0%float, "rgba( 0, 0, 255, 0 )"%string);
                            (1%float, "rgba( 0, 0, 255, 0.4 )"%string) ] |};
                 CloudView.linked := true |}
              (IsotopeElectronCloudView.mkCircle 1
                 IsotopeElectronCloudView.transparent)
              (new_NumberAtom_live _) eq_refl eq_refl E)
    as (view' & F & Hl & Hs).
  exists view'. split; [exact E|]. split; [exact F|]. split; [exact Hl|exact Hs].
Defined.

Lemma cloud_ignores_electron_count_witness :
  exists a' t,
    setSubAtomicParticleCount 6 6 5 (new_NumberAtom (withCounts 6 6 6))
      = Ok (tt, a', t) /\
    CloudView.follow (fun x => x) true t
      {| CloudView.circle :=
           IsotopeElectronCloudView.mkCircle 1 IsotopeElectronCloudView.transparent;
         CloudView.linked := true |}
      = Ok {| CloudView.circle :=
                IsotopeElectronCloudView.mkCircle 1
                  IsotopeElectronCloudView.transparent;
              CloudView.linked := true |}.
Proof.
  eexists; eexists.
  assert (E : setSubAtomicParticleCount 6 6 5 (new_NumberAtom (withCounts 6 6 6))
              = Ok (tt, new_NumberAtom (withCounts 6 6 5),
                    [ DerivedChanged Charge 1 0;
                      DerivedChanged ParticleCount 17 18;
                      BaseChanged Electron 5 6;
                      AtomUpdated ])) by reflexivity.
  split; [exact E|].
  exact (proj1 (cloud_ignores_electron_count (fun x => x) true
                  (new_NumberAtom (withCounts 6 6 6)) _ 6 5 _
                  {| CloudView.circle :=
                       IsotopeElectronCloudView.mkCircle 1
                         IsotopeElectronCloudView.transparent;
                     CloudView.linked := true |} E)).
Defined.

(** ** The atom: more on the methods *)

Lemma set_result_constructed
    (a a' : NumberAtom) (p n e : Z) (t : list Event) :
  live a -> consistent a ->
  setSubAtomicParticleCount p n e a = Ok (tt, a', t) ->
  a' = new_NumberAtom (withCounts p n e).
Proof.
  intros L C E.
  destruct (updatesFrom_invariant a a' L C
              (updates_step a a a' p n e t (updates_none a) E)) as [L' C'].
  destruct (setSubAtomicParticleCount_steps p n e a)
    as (a1 & a2 & a3 & t1 & t2 & t3 & _ & _ & _ & _ & ES & _ & _ & _
        & Hp & Hn & He & _).
  rewrite ES in E. injection E as <- _.
  split_atom a3.
  destruct L' as (L1 & L2 & L3 & L4 & L5 & L6 & L7).
  destruct C' as (C1 & C2 & C3).
  unfold derivation, protonCount, neutronCount, electronCount in *.
  simpl in *. subst. reflexivity.
Qed.

(** X7.  On a live atom whose derived values are in step, a call of
    [setSubAtomicParticleCount] leaves exactly the atom the constructor
    builds for the same three counts: nothing of the history remains. *)
Theorem setSubAtomicParticleCount_as_constructed
    (a a' : NumberAtom) (p n e : Z) (t : list Event) :
  live a -> consistent a ->
  setSubAtomicParticleCount p n e a = Ok (tt, a', t) ->
  a' = new_NumberAtom (withCounts p n e).
Proof.
  intros L C E.
  destruct (updatesFrom_invariant a a' L C
              (updates_step a a a' p n e t (updates_none a) E)) as [L' C'].
  destruct (setSubAtomicParticleCount_steps p n e a)
    as (a1 & a2 & a3 & t1 & t2 & t3 & _ & _ & _ & _ & ES & _ & _ & _
        & Hp & Hn & He & _).
  rewrite ES in E. injection E as <- _.
  split_atom a3.
  destruct L' as (L1 & L2 & L3 & L4 & L5 & L6 & L7).
  destruct C' as (C1 & C2 & C3).
  unfold derivation, protonCount, neutronCount, electronCount in *.
  simpl in *. subst. reflexivity.
Qed.

Lemma setSubAtomicParticleCount_as_constructed_witness :
  exists a' t,
    setSubAtomicParticleCount 6 6 5 (new_NumberAtom (withCounts 1 0 1))
      = Ok (tt, a', t) /\
    a' = new_NumberAtom (withCounts 6 6 5).
Proof.
  eexists; eexists.
  assert (E : setSubAtomicParticleCount 6 6 5 (new_NumberAtom (withCounts 1 0 1))
              = Ok (tt, new_NumberAtom (withCounts 6 6 5),
                    [ DerivedChanged Charge 5 0;
                      DerivedChanged MassNumber 6 1;
                      DerivedChanged ParticleCount 7 2;
                      BaseChanged Proton 6 1;
                      DerivedChanged Charge 1 5;
                      DerivedChanged ParticleCount 11 7;
                      BaseChanged Electron 5 1;
                      DerivedChanged MassNumber 12 6;
                      DerivedChanged ParticleCount 17 11;
                      BaseChanged Neutron 6 0;
                      AtomUpdated ])) by reflexivity.
  split; [exact E|].
  exact (setSubAtomicParticleCount_as_constructed
           (new_NumberAtom (withCounts 1 0 1)) _ 6 6 5 _
           (new_NumberAtom_live _) (new_NumberAtom_consistent _) E).
Defined.

(** X8.  [equals] is transitive; with reflexivity and symmetry it is an
    equivalence on atoms. *)
Theorem equals_transitive (a b c : NumberAtom) :
  equals a b = true -> equals b c = true -> equals a c = true.
Proof.
  unfold equals. rewrite !andb_true_iff, !Z.eqb_eq.
  intros [[H1 H2] H3] [[H4 H5] H6]. repeat split; congruence.
Qed.

Lemma equals_transitive_witness :
  equals (new_NumberAtom (withCounts 6 6 6))
         (new_NumberAtom (withCounts 6 6 6)) = true.
Proof.
  apply (equals_transitive (new_NumberAtom (withCounts 6 6 6))
           (new_NumberAtom (withCounts 6 6 6))
           (new_NumberAtom (withCounts 6 6 6))); reflexivity.
Defined.

(** X9.  Moving a live neutral atom from [k] protons and electrons to [m] of
    each, [m <> k], both counts between 0 and 2^53, passes through a charged
    state: the listeners of [chargeProperty] are told of the charge [m - k]
    after the proton count is set, and of the charge 0 again after the
    electron count is set. *)
Theorem setSubAtomicParticleCount_transient_charge
    (a a' : NumberAtom) (k m n : Z) (t : list Event) :
  live a -> consistent a ->
  protonCount a = k -> electronCount a = k ->
  0 <= k <= 2 ^ 53 -> 0 <= m <= 2 ^ 53 -> m <> k ->
  setSubAtomicParticleCount m n m a = Ok (tt, a', t) ->
  exists t1 t2 t3,
    t = (t1 ++ DerivedChanged Charge (m - k) 0 :: t2
            ++ DerivedChanged Charge 0 (m - k) :: t3)%list.
Proof.
  split_atom a.
  intros (H1 & H2 & H3 & H4 & H5 & H6 & H7) (C1 & C2 & C3).
  unfold derivation, protonCount, neutronCount, electronCount in *.
  simpl in *.
  intros -> -> Hk Hm Hne. subst.
  assert (Emk : Js.minus m k = m - k).
  { apply round_exact. change (2 ^ 53) with 9007199254740992 in *. lia. }
  assert (Ekk : Js.minus k k = 0).
  { unfold Js.minus. rewrite Z.sub_diag. reflexivity. }
  assert (Emm : Js.minus m m = 0).
  { unfold Js.minus. rewrite Z.sub_diag. reflexivity. }
  clear Hk Hm.
  unfold setSubAtomicParticleCount. unfold_methods.
  rewrite ?Emk, ?Ekk, ?Emm.
  remember (m - k) as c eqn:Hc.
  destruct c as [|c|c]; [lia| |];
    repeat first
      [ rewrite Emm; simpl
      | rewrite Ekk; simpl
      | match goal with
        | |- context [Z.eqb ?x ?y] => destruct (Z.eqb_spec x y); simpl
        end ];
    try lia;
    intros H; injection H as <- <-;
    exists [].
  all: try (eexists (_ :: _ :: _ :: []); eexists; reflexivity).
  all: try (eexists (_ :: _ :: []); eexists; reflexivity).
  all: try (eexists (_ :: []); eexists; reflexivity).
  all: try (eexists []; eexists; reflexivity).
Qed.

Lemma setSubAtomicParticleCount_transient_charge_witness :
  exists a' t t1 t2 t3,
    setSubAtomicParticleCount 7 7 7 (new_NumberAtom (withCounts 6 6 6))
      = Ok (tt, a', t) /\
    t = (t1 ++ DerivedChanged Charge (7 - 6) 0 :: t2
            ++ DerivedChanged Charge 0 (7 - 6) :: t3)%list.
Proof.
  eexists; eexists.
  assert (E : setSubAtomicParticleCount 7 7 7 (new_NumberAtom (withCounts 6 6 6))
              = Ok (tt, new_NumberAtom (withCounts 7 7 7),
                    [ DerivedChanged Charge 1 0;
                      DerivedChanged MassNumber 13 12;
                      DerivedChanged ParticleCount 19 18;
                      BaseChanged Proton 7 6;
                      DerivedChanged Charge 0 1;
                      DerivedChanged ParticleCount 20 19;
                      BaseChanged Electron 7 6;
                      DerivedChanged MassNumber 14 13;
                      DerivedChanged ParticleCount 21 20;
                      BaseChanged Neutron 7 6;
                      AtomUpdated ])) by reflexivity.
  destruct (setSubAtomicParticleCount_transient_charge
              (new_NumberAtom (withCounts 6 6 6)) _ 6 7 7 _
              (new_NumberAtom_live _) (new_NumberAtom_consistent _)
              eq_refl eq_refl ltac:(vm_compute; split; discriminate)
              ltac:(vm_compute; split; discriminate) ltac:(lia) E)
    as (t1 & t2 & t3 & Ht).
  exists t1, t2, t3. split; [exact E|exact Ht].
Defined.

(** X10.  On every atom obtained from a constructed one by calls that returned,
    the standard atomic mass is looked up under the atom's mass number, the
    value [massNumberProperty] holds. *)
Theorem getStandardAtomicMass_at_mass_number
    (Mass : Type) (AtomIdentifier_getStandardAtomicMass : Z -> Mass)
    (options : Options) (a : NumberAtom) :
  updatesFrom (new_NumberAtom options) a ->
  getStandardAtomicMass Mass AtomIdentifier_getStandardAtomicMass a
    = AtomIdentifier_getStandardAtomicMass (value (massNumberProperty a)).
Proof.
  intros U.
  destruct (updatesFrom_invariant _ a (new_NumberAtom_live options)
              (new_NumberAtom_consistent options) U) as [_ (_ & C & _)].
  unfold getStandardAtomicMass. now rewrite C.
Qed.

Lemma getStandardAtomicMass_at_mass_number_witness :
  getStandardAtomicMass Z (fun massNumber => 2 * massNumber)
    (new_NumberAtom (withCounts 6 7 6)) = 2 * 13.
Proof.
  apply (getStandardAtomicMass_at_mass_number Z (fun massNumber => 2 * massNumber)
           (withCounts 6 7 6) (new_NumberAtom (withCounts 6 7 6))).
  apply updates_none.
Defined.

(** ** The expanded periodic table *)

Section TableProperties.

Import ExpandedPeriodicTableNode.

Variable ENABLED_CELL_COLOR : string.
Variable getSymbol : Z -> string.
Variable getNumNeutronsInMostCommonIsotope : Z -> Z.

Lemma rowsFor_cases (interactiveMax : Z) :
  (interactiveMax <= 2 /\ rowsFor interactiveMax = 1) \/
  (2 < interactiveMax <= 10 /\ rowsFor interactiveMax = 2) \/
  (10 < interactiveMax /\ rowsFor interactiveMax = 3).
Proof.
  unfold rowsFor.
  destruct (Z.ltb_spec 2 interactiveMax), (Z.leb_spec interactiveMax 10),
    (Z.ltb_spec 10 interactiveMax); simpl; lia.
Qed.

(** X11.  The buttons are the elements 1, 2, 3, ... in order, each labelled with
    its own symbol, and there are 2, 10 or 18 of them: [interactiveMax] only
    chooses between one, two and three rows. *)
Theorem buildCells_elements_in_order (interactiveMax : Z) :
  map atomicNumber (buildCells ENABLED_CELL_COLOR getSymbol interactiveMax)
    = map Z.of_nat (seq 1 (List.length (buildCells ENABLED_CELL_COLOR getSymbol interactiveMax))) /\
  map text (buildCells ENABLED_CELL_COLOR getSymbol interactiveMax)
    = map getSymbol (map atomicNumber (buildCells ENABLED_CELL_COLOR getSymbol interactiveMax)) /\
  List.length (buildCells ENABLED_CELL_COLOR getSymbol interactiveMax)
    = if interactiveMax <=? 2 then 2%nat
      else if interactiveMax <=? 10 then 10%nat else 18%nat.
Proof.
  unfold ExpandedPeriodicTableNode.buildCells.
  destruct (rowsFor_cases interactiveMax) as [[H ->]|[[H ->]|[H ->]]];
    destruct (Z.leb_spec interactiveMax 2); try lia;
    destruct (Z.leb_spec interactiveMax 10); try lia;
    repeat split; reflexivity.
Qed.

Lemma buildCells_elements_cases (interactiveMax : Z) :
  map atomicNumber (buildCells ENABLED_CELL_COLOR getSymbol interactiveMax)
    = [1; 2] \/
  map atomicNumber (buildCells ENABLED_CELL_COLOR getSymbol interactiveMax)
    = [1; 2; 3; 4; 5; 6; 7; 8; 9; 10] \/
  map atomicNumber (buildCells ENABLED_CELL_COLOR getSymbol interactiveMax)
    = [1; 2; 3; 4; 5; 6; 7; 8; 9; 10; 11; 12; 13; 14; 15; 16; 17; 18].
Proof.
  unfold ExpandedPeriodicTableNode.buildCells.
  destruct (rowsFor_cases interactiveMax) as [[H ->]|[[H ->]|[H ->]]];
    [left|right; left|right; right]; reflexivity.
Qed.

Lemma buildCells_all_enabled (interactiveMax : Z) (k : nat) (b : TextPushButton) :
  nth_error (buildCells ENABLED_CELL_COLOR getSymbol interactiveMax) k = Some b ->
  baseColor b = ENABLED_CELL_COLOR.
Proof.
  unfold ExpandedPeriodicTableNode.buildCells.
  destruct (rowsFor_cases interactiveMax) as [[H ->]|[[H ->]|[H ->]]];
    cbv [Z.to_nat Pos.to_nat Pos.iter_op Nat.add seq map fold_left addRow
         POPULATED_CELLS nth List.length Nat.iter nat_rect addButton app fst];
    intros Hk;
    repeat (destruct k as [|k]; [injection Hk as <-; reflexivity|]);
    destruct k; discriminate.
Qed.

(** X12.  Whenever [interactiveMax] is not 2, 10 or at least 18, the table has a
    button for an element above [interactiveMax]. *)
Theorem buildCells_beyond_interactiveMax (interactiveMax : Z) :
  interactiveMax < 18 -> interactiveMax <> 2 -> interactiveMax <> 10 ->
  exists b, In b (buildCells ENABLED_CELL_COLOR getSymbol interactiveMax) /\
            interactiveMax < atomicNumber b.
Proof.
  intros H18 H2 H10.
  unfold ExpandedPeriodicTableNode.buildCells.
  destruct (rowsFor_cases interactiveMax) as [[H ->]|[[H ->]|[H ->]]].
  - exists (mkButton (getSymbol 2) 2 ENABLED_CELL_COLOR (8 * BUTTON_SIZE, 0)).
    split; [right; left; reflexivity|simpl; lia].
  - exists (mkButton (getSymbol 10) 10 ENABLED_CELL_COLOR
              (8 * BUTTON_SIZE, 1 * BUTTON_SIZE)).
    split; [do 9 right; left; reflexivity|simpl; lia].
  - exists (mkButton (getSymbol 18) 18 ENABLED_CELL_COLOR
              (8 * BUTTON_SIZE, 2 * BUTTON_SIZE)).
    split; [do 17 right; left; reflexivity|simpl; lia].
Qed.

Lemma setBaseColor_length (k : nat) (color : string) (l : list TextPushButton) :
  List.length (setBaseColor k color l) = List.length l.
Proof.
  revert k; induction l as [|b l IH]; intros [|k]; simpl; auto.
Qed.

Lemma setBaseColor_atomicNumber (k : nat) (color : string)
    (l : list TextPushButton) :
  map atomicNumber (setBaseColor k color l) = map atomicNumber l.
Proof.
  revert k; induction l as [|b l IH]; intros [|k]; simpl; auto.
  now rewrite IH.
Qed.

Lemma setBaseColor_same (k : nat) (color : string) (l : list TextPushButton)
    (b : TextPushButton) :
  nth_error (setBaseColor k color l) k = Some b -> baseColor b = color.
Proof.
  revert k; induction l as [|x l IH]; intros [|k]; simpl; try discriminate.
  - intros H; injection H as <-. reflexivity.
  - apply IH.
Qed.

Lemma setBaseColor_other (k j : nat) (color : string) (l : list TextPushButton) :
  j <> k -> nth_error (setBaseColor k color l) j = nth_error l j.
Proof.
  revert k j; induction l as [|x l IH]; intros [|k] [|j] H; simpl; auto;
    try congruence.
Qed.

Lemma nth_error_in_range {A} (l : list A) (k : nat) (x : A) :
  nth_error l k = Some x -> (k < List.length l)%nat.
Proof. intros H. apply nth_error_Some. congruence. Qed.

(** After the listener has run with a proton count, the button of that
    element, and no other, has the selected colour; with a proton count that
    has no button (zero, negative, or beyond the last button) no button has
    it.  The listener never touches which element a button stands for. *)
Lemma protonCountListener_shows (protonCount : Z) (self : t) :
  othersEnabled ENABLED_CELL_COLOR self ->
  othersEnabled ENABLED_CELL_COLOR
    (protonCountListener ENABLED_CELL_COLOR protonCount self) /\
  shows ENABLED_CELL_COLOR
    (protonCountListener ENABLED_CELL_COLOR protonCount self) protonCount /\
  map atomicNumber
    (cells (protonCountListener ENABLED_CELL_COLOR protonCount self))
    = map atomicNumber (cells self).
Proof.
  intros Inv.
  destruct self as [cs hb].
  unfold ExpandedPeriodicTableNode.protonCountListener. simpl.
  set (cells1 := match hb with
                 | Some k => setBaseColor k ENABLED_CELL_COLOR cs
                 | None => cs
                 end).
  assert (Len1 : List.length cells1 = List.length cs).
  { unfold cells1. destruct hb; [apply setBaseColor_length|reflexivity]. }
  assert (Num1 : map atomicNumber cells1 = map atomicNumber cs).
  { unfold cells1. destruct hb; [apply setBaseColor_atomicNumber|reflexivity]. }
  assert (All1 : forall j b, nth_error cells1 j = Some b ->
                             baseColor b = ENABLED_CELL_COLOR).
  { intros j b Hj. unfold cells1 in Hj. destruct hb as [k|].
    - destruct (Nat.eq_dec j k) as [->|Hne].
      + eapply setBaseColor_same; exact Hj.
      + rewrite setBaseColor_other in Hj by assumption.
        apply (Inv j b Hj). simpl. congruence.
    - apply (Inv j b Hj). simpl. discriminate. }
  destruct (Z.ltb_spec 0 protonCount) as [Hpos|Hnpos]; simpl.
  - destruct (Z.leb_spec protonCount (Z.of_nat (List.length cs))) as [Hle|Hgt];
      simpl.
    + split; [|split].
      * intros j b Hj Hne. simpl in *.
        rewrite setBaseColor_other in Hj by congruence.
        exact (All1 j b Hj).
      * intros j b Hj. simpl in Hj.
        destruct (Nat.eq_dec j (Z.to_nat (protonCount - 1))) as [->|Hne].
        -- rewrite (setBaseColor_same _ _ _ _ Hj).
           rewrite Z2Nat.id by lia.
           replace (protonCount - 1 + 1) with protonCount by lia.
           now rewrite Z.eqb_refl.
        -- rewrite setBaseColor_other in Hj by assumption.
           rewrite (All1 j b Hj).
           destruct (Z.eqb_spec (Z.of_nat j + 1) protonCount) as [He|_];
             [|reflexivity].
           exfalso. apply Hne. lia.
      * simpl. now rewrite setBaseColor_atomicNumber.
    + split; [|split].
      * intros j b Hj _. exact (All1 j b Hj).
      * intros j b Hj. simpl in Hj.
        pose proof (nth_error_in_range _ _ _ Hj) as Hr. rewrite Len1 in Hr.
        rewrite (All1 j b Hj).
        destruct (Z.eqb_spec (Z.of_nat j + 1) protonCount); [lia|reflexivity].
      * exact Num1.
  - split; [|split].
    + intros j b Hj _. exact (All1 j b Hj).
    + intros j b Hj. simpl in Hj. rewrite (All1 j b Hj).
      destruct (Z.eqb_spec (Z.of_nat j + 1) protonCount); [lia|reflexivity].
    + exact Num1.
Qed.

Lemma last_nonempty_default {A} (x : A) (l : list A) (d1 d2 : A) :
  last (x :: l) d1 = last (x :: l) d2.
Proof.
  revert x; induction l as [|y l IH]; intros x; [reflexivity|].
  change (last (y :: l) d1 = last (y :: l) d2). apply IH.
Qed.

Lemma follow_shows (newValues : list Z) (self : t) (protonCount : Z) :
  othersEnabled ENABLED_CELL_COLOR self ->
  shows ENABLED_CELL_COLOR self protonCount ->
  let self' :=
    fold_left (fun s p => protonCountListener ENABLED_CELL_COLOR p s)
      newValues self in
  othersEnabled ENABLED_CELL_COLOR self' /\
  shows ENABLED_CELL_COLOR self' (last newValues protonCount) /\
  map atomicNumber (cells self') = map atomicNumber (cells self).
Proof.
  revert self protonCount.
  induction newValues as [|p rest IH]; intros self protonCount Inv Sh.
  - simpl. now repeat split.
  - destruct (protonCountListener_shows p self Inv) as (Inv' & Sh' & Num').
    destruct (IH _ p Inv' Sh') as (Inv'' & Sh'' & Num'').
    cbn [fold_left]. split; [exact Inv''|]. split.
    + destruct rest as [|q rest]; [exact Sh''|].
      change (last (p :: q :: rest) protonCount)
        with (last (q :: rest) protonCount).
      rewrite (last_nonempty_default q rest protonCount p). exact Sh''.
    + now rewrite Num''.
Qed.

Lemma new_table_shows (numberAtom : NumberAtom) (interactiveMax : Z) :
  shows ENABLED_CELL_COLOR
    (new_ExpandedPeriodicTableNode ENABLED_CELL_COLOR getSymbol
       numberAtom interactiveMax)
    (protonCount numberAtom) /\
  othersEnabled ENABLED_CELL_COLOR
    (new_ExpandedPeriodicTableNode ENABLED_CELL_COLOR getSymbol
       numberAtom interactiveMax).
Proof.
  unfold new_ExpandedPeriodicTableNode.
  destruct (protonCountListener_shows (value (protonCountProperty numberAtom))
              {| cells := buildCells ENABLED_CELL_COLOR getSymbol interactiveMax;
                 highlightedButton := None |}) as (Inv & Sh & _).
  - intros k b Hk _. exact (buildCells_all_enabled interactiveMax k b Hk).
  - split; assumption.
Qed.

(** X13.  Right after construction the table shows the atom's proton count: the
    button of that element, and no other, has the selected colour, and with
    a proton count that has no button none has it. *)
Theorem new_ExpandedPeriodicTableNode_shows_atom
    (numberAtom : NumberAtom) (interactiveMax : Z) :
  shows ENABLED_CELL_COLOR
    (new_ExpandedPeriodicTableNode ENABLED_CELL_COLOR getSymbol
       numberAtom interactiveMax)
    (protonCount numberAtom) /\
  othersEnabled ENABLED_CELL_COLOR
    (new_ExpandedPeriodicTableNode ENABLED_CELL_COLOR getSymbol
       numberAtom interactiveMax).
Proof.
  unfold new_ExpandedPeriodicTableNode.
  destruct (protonCountListener_shows (value (protonCountProperty numberAtom))
              {| cells := buildCells ENABLED_CELL_COLOR getSymbol interactiveMax;
                 highlightedButton := None |}) as (Inv & Sh & _).
  - intros k b Hk _. exact (buildCells_all_enabled interactiveMax k b Hk).
  - split; assumption.
Qed.

(** X14.  A table that shows the proton count of a live atom still does so after
    any [setSubAtomicParticleCount]: the highlight follows the atom. *)
Theorem table_follows_proton_count
    (a a' : NumberAtom) (p n e : Z) (trace : list Event) (self : t) :
  live a ->
  othersEnabled ENABLED_CELL_COLOR self ->
  shows ENABLED_CELL_COLOR self (protonCount a) ->
  setSubAtomicParticleCount p n e a = Ok (tt, a', trace) ->
  shows ENABLED_CELL_COLOR (follow ENABLED_CELL_COLOR trace self)
    (protonCount a') /\
  othersEnabled ENABLED_CELL_COLOR (follow ENABLED_CELL_COLOR trace self).
Proof.
  intros L Inv Sh E.
  destruct (setSubAtomicParticleCount_protonChanges p n e a a' trace E)
    as [Hp Hc].
  destruct L as (Lp & _). rewrite Lp in Hc. simpl in Hc.
  unfold ExpandedPeriodicTableNode.follow. rewrite Hc.
  destruct (follow_shows (if protonCount a =? p then [] else [p]) self
              (protonCount a) Inv Sh) as (Inv' & Sh' & _).
  split; [|exact Inv'].
  destruct (Z.eqb_spec (protonCount a) p) as [Heq|Hne]; simpl in *.
  - rewrite Hp, <- Heq. exact Sh'.
  - rewrite Hp. exact Sh'.
Qed.

(** X15.  Pressing a button of the table on a live atom whose derived values are in
    step leaves the neutral atom of the button's element, with the neutron
    count of its most common isotope, and fires [atomUpdated] once. *)
Theorem press_gives_neutral_element
    (interactiveMax : Z) (button : TextPushButton)
    (a a' : NumberAtom) (trace : list Event) :
  In button (buildCells ENABLED_CELL_COLOR getSymbol interactiveMax) ->
  live a -> consistent a ->
  press getNumNeutronsInMostCommonIsotope button a = Ok (tt, a', trace) ->
  1 <= atomicNumber button <= 18 /\
  a' = new_NumberAtom
         (withCounts (atomicNumber button)
            (getNumNeutronsInMostCommonIsotope (atomicNumber button))
            (atomicNumber button)) /\
  value (chargeProperty a') = 0 /\
  emissions trace = 1%nat.
Proof.
  intros Hin L C E. unfold press in E.
  split.
  { apply (in_map atomicNumber) in Hin.
    destruct (buildCells_elements_cases interactiveMax) as [H|[H|H]];
      rewrite H in Hin; simpl in Hin; lia. }
  pose proof (set_result_constructed _ _ _ _ _ _ L C E) as ->.
  split; [reflexivity|].
  split; [simpl; unfold Js.minus; rewrite Z.sub_diag; reflexivity|].
  destruct (setSubAtomicParticleCount_steps (atomicNumber button)
              (getNumNeutronsInMostCommonIsotope (atomicNumber button))
              (atomicNumber button) a)
    as (a1 & a2 & a3 & t1 & t2 & t3 & _ & _ & _ & _ & ES & _ & _ & F3
        & _ & _ & _ & N).
  rewrite ES in E. injection E as _ <-.
  rewrite (live_emitted a3 (sameFlags_live _ _ F3 L)).
  rewrite emissions_app, N. reflexivity.
Qed.

End TableProperties.

Lemma buildCells_beyond_interactiveMax_witness :
  exists b,
    In b (ExpandedPeriodicTableNode.buildCells "white" (fun _ => "?"%string) 3) /\
    3 < ExpandedPeriodicTableNode.atomicNumber b.
Proof.
  apply (buildCells_beyond_interactiveMax "white" (fun _ => "?"%string) 3); lia.
Defined.

Lemma table_follows_proton_count_witness :
  exists a' trace,
    setSubAtomicParticleCount 7 7 7 (new_NumberAtom (withCounts 6 6 6))
      = Ok (tt, a', trace) /\
    ExpandedPeriodicTableNode.shows "white"
      (ExpandedPeriodicTableNode.follow "white" trace
         (ExpandedPeriodicTableNode.new_ExpandedPeriodicTableNode "white"
            (fun _ => "?"%string) (new_NumberAtom (withCounts 6 6 6)) 10))
      (protonCount a') /\
    ExpandedPeriodicTableNode.othersEnabled "white"
      (ExpandedPeriodicTableNode.follow "white" trace
         (ExpandedPeriodicTableNode.new_ExpandedPeriodicTableNode "white"
            (fun _ => "?"%string) (new_NumberAtom (withCounts 6 6 6)) 10)).
Proof.
  destruct (setSubAtomicParticleCount_steps 7 7 7
              (new_NumberAtom (withCounts 6 6 6)))
    as (a1 & a2 & a3 & t1 & t2 & t3 & _ & _ & _ & _ & ES & _).
  eexists; eexists. split; [exact ES|].
  apply (table_follows_proton_count "white"
           (new_NumberAtom (withCounts 6 6 6)) _ 7 7 7 _ _
           (new_NumberAtom_live _)
           (proj2 (new_table_shows "white" (fun _ => "?"%string)
                     (new_NumberAtom (withCounts 6 6 6)) 10))
           (proj1 (new_table_shows "white" (fun _ => "?"%string)
                     (new_NumberAtom (withCounts 6 6 6)) 10))
           ES).
Defined.

Lemma press_gives_neutral_element_witness :
  exists a' trace,
    ExpandedPeriodicTableNode.press (fun z => z + 1)
      (ExpandedPeriodicTableNode.mkButton "?" 3 "white" (0, 50))
      (new_NumberAtom (withCounts 6 6 6)) = Ok (tt, a', trace) /\
    1 <= 3 <= 18 /\
    a' = new_NumberAtom (withCounts 3 (3 + 1) 3) /\
    value (chargeProperty a') = 0 /\
    emissions trace = 1%nat.
Proof.
  destruct (setSubAtomicParticleCount_steps 3 (3 + 1) 3
              (new_NumberAtom (withCounts 6 6 6)))
    as (a1 & a2 & a3 & t1 & t2 & t3 & _ & _ & _ & _ & ES & _).
  eexists; eexists. split; [exact ES|].
  apply (press_gives_neutral_element "white" (fun _ => "?"%string)
           (fun z => z + 1) 10
           (ExpandedPeriodicTableNode.mkButton "?" 3 "white" (0, 50))
           (new_NumberAtom (withCounts 6 6 6)) _ _).
  - do 2 right. left. reflexivity.
  - apply new_NumberAtom_live.
  - apply new_NumberAtom_consistent.
  - exact ES.
Defined.

(** ** Particle nodes *)

Section ParticleNodeProperties.

Import ParticleNode.

(** X16.  The constructor throws exactly when assertions are enabled and the
    particle type is neither proton, neutron or electron nor the name of a
    member of [Object.prototype]; with assertions disabled such a type gives
    a particle whose gradient ends in black. *)
Theorem new_ParticleNode_throws_iff
    (assert : bool) (id : nat) (particleType : string) (radius : float)
    (options : Options) :
  ((exists e, new_ParticleNode assert id particleType radius options = Throw e)
   <->
   assert = true /\
   ~ In particleType
       ("proton" :: "neutron" :: "electron" :: Object_prototype_names)%string) /\
  (assert = false ->
   ~ In particleType
       ("proton" :: "neutron" :: "electron" :: Object_prototype_names)%string ->
   exists node,
     new_ParticleNode assert id particleType radius options = Ok node /\
     colorStops (circleFill node)
       = [ (0%float, Css "white"); (1%float, Css "black") ]).
Proof.
  assert (Hundef : colors particleType = undefined <->
                   ~ In particleType
                       ("proton" :: "neutron" :: "electron"
                          :: Object_prototype_names)%string).
  { unfold colors.
    destruct (String.eqb_spec particleType "proton") as [->|H1];
      [split; [discriminate|intros H; exfalso; apply H; simpl; auto]|].
    destruct (String.eqb_spec particleType "neutron") as [->|H2];
      [split; [discriminate|intros H; exfalso; apply H; simpl; auto]|].
    destruct (String.eqb_spec particleType "electron") as [->|H3];
      [split; [discriminate|intros H; exfalso; apply H; simpl; auto]|].
    destruct (existsb (String.eqb particleType) Object_prototype_names) eqn:Hex.
    - split; [discriminate|]. intros H. exfalso. apply H.
      apply existsb_exists in Hex. destruct Hex as (name & Hin & Heq).
      apply String.eqb_eq in Heq. subst name. do 3 right. exact Hin.
    - split; [|reflexivity]. intros _ [H|[H|[H|H]]]; try congruence.
      assert (Hex' : existsb (String.eqb particleType) Object_prototype_names
                     = true).
      { apply existsb_exists. exists particleType. split; [exact H|].
        apply String.eqb_refl. }
      congruence. }
  split.
  - unfold new_ParticleNode. split.
    + intros [e He]. destruct (colors particleType) eqn:Hc; [discriminate|].
      destruct assert; [|discriminate].
      split; [reflexivity|]. now apply Hundef.
    + intros [-> Hn]. apply Hundef in Hn. rewrite Hn. eexists; reflexivity.
  - intros -> Hn. apply Hundef in Hn. unfold new_ParticleNode. rewrite Hn.
    eexists. split; reflexivity.
Qed.

Lemma leb_nan_r (v : float) : PrimFloat.leb v nan = false.
Proof.
  rewrite leb_spec.
  replace (Prim2SF nan) with S754_nan by reflexivity.
  unfold SFleb, SFcompare. now destruct (Prim2SF v) as [s| s| |s m e].
Qed.

(** X17.  A particle node made without [maxZLayer] in its options has a validator
    that accepts no number at all, not even the initial value 0 of
    [zLayerProperty]. *)
Theorem isValidValue_without_maxZLayer
    (assert : bool) (id : nat) (particleType : string) (radius : float)
    (options : Options) (node : t) :
  opt_maxZLayer options = None ->
  new_ParticleNode assert id particleType radius options = Ok node ->
  (forall value, isValidValue node value = false) /\
  isValidValue node (zLayer node) = false.
Proof.
  intros Hopt Hnew.
  assert (Hmax : maxZLayer node = None).
  { unfold new_ParticleNode in Hnew.
    destruct (colors particleType); [|destruct assert; [discriminate|]];
      injection Hnew as <-; exact Hopt. }
  assert (Hall : forall value, isValidValue node value = false).
  { intros value. unfold isValidValue. rewrite Hmax, leb_nan_r.
    apply andb_false_r. }
  split; [exact Hall|apply Hall].
Qed.

Lemma isValidValue_without_maxZLayer_witness :
  (forall value,
     isValidValue
       (mkNode 0 "proton" 5 0 0
          (mkGradient (-5 * 0.4) (-5 * 0.4) 0 (-5 * 0.4) (-5 * 0.4) (5 * 1.6)
             [ (0%float, Css "white"); (1%float, RED_COLORBLIND) ])
          0 None) value = false) /\
  isValidValue
    (mkNode 0 "proton" 5 0 0
       (mkGradient (-5 * 0.4) (-5 * 0.4) 0 (-5 * 0.4) (-5 * 0.4) (5 * 1.6)
          [ (0%float, Css "white"); (1%float, RED_COLORBLIND) ])
       0 None) 0 = false.
Proof.
  apply (isValidValue_without_maxZLayer true 0 "proton" 5 (mkOptions 0 0 None));
    reflexivity.
Defined.

End ParticleNodeProperties.

(** ** The particle count display *)

Section DisplayProperties.

Import ParticleCountDisplay.

Variable assert : bool.
Variable maxParticles maxWidth : float.
Variable protonTitle_right protonTitle_center_y : float.
Variable neutronTitle_right neutronTitle_center_y : float.

Lemma at_index_last (array : list ParticleNode.t) (node : ParticleNode.t) :
  at_index (array ++ [node]) (Z.of_nat (List.length array)) = Some node.
Proof.
  unfold at_index.
  destruct (Z.ltb_spec (Z.of_nat (List.length array)) 0); [lia|].
  rewrite Nat2Z.id, nth_error_app2 by lia.
  now rewrite Nat.sub_diag.
Qed.

Lemma splice1_last (array : list ParticleNode.t) (node : ParticleNode.t) :
  splice1 (array ++ [node]) (List.length array) = array.
Proof. induction array as [|n array IH]; simpl; [reflexivity|now rewrite IH]. Qed.

Lemma childIds_app (l1 l2 : list Child) :
  childIds (l1 ++ l2) = (childIds l1 ++ childIds l2)%list.
Proof.
  induction l1 as [|[|n] l1 IH]; simpl; [reflexivity|exact IH|now rewrite IH].
Qed.

(** Removing a node that is a child takes its id, once, out of the layer. *)
Lemma removeChild_child (children : list Child) (node : ParticleNode.t) :
  In (ParticleNode.id node) (childIds children) ->
  exists children',
    removeChild children node = Some children' /\
    Permutation (childIds children)
      (ParticleNode.id node :: childIds children').
Proof.
  induction children as [|[|n] children IH]; simpl; intros Hin.
  - contradiction.
  - destruct (IH Hin) as (children' & -> & Hp).
    exists (Spacer :: children'). split; [reflexivity|exact Hp].
  - destruct (Nat.eqb_spec (ParticleNode.id n) (ParticleNode.id node))
      as [Heq|Hne].
    + exists children. split; [reflexivity|]. now rewrite Heq.
    + destruct Hin as [Hin|Hin]; [contradiction|].
      destruct (IH Hin) as (children' & -> & Hp).
      exists (Particle n :: children'). split; [reflexivity|]. simpl.
      rewrite Hp. apply perm_swap.
Qed.

(** With the quantity equal to the length of the array, which is how the
    display keeps it, [incrementParticleCount] never finds a stored node to
    reuse: it makes a new one, in the slot after the last. *)
Lemma incrementParticleCount_pushes
    (array : list ParticleNode.t) (particleType : string)
    (c : ParticleNode.Color) (radius startX startY : float)
    (layer : list Child) (fresh : nat) :
  ParticleNode.colors particleType = ParticleNode.Found c ->
  exists node,
    incrementParticleCount assert maxParticles maxWidth protonTitle_right
      array (Z.of_nat (List.length array)) particleType radius startX startY
      layer fresh
      = Returns ((array ++ [node])%list, Z.of_nat (List.length array) + 1,
                 (layer ++ [Particle node])%list, S fresh) /\
    ParticleNode.id node = fresh /\
    ParticleNode.particleType node = particleType /\
    ParticleNode.radius node = radius /\
    ParticleNode.x node
      = (startX + Js.of_Z (Z.of_nat (List.length array))
                  * interParticleSpacing maxParticles maxWidth protonTitle_right)%float /\
    ParticleNode.y node = startY /\
    ParticleNode.maxZLayer node = None.
Proof.
  intros Hc. unfold incrementParticleCount, ParticleNode.new_ParticleNode.
  rewrite Z.eqb_refl, Hc, at_index_last.
  eexists. split; [reflexivity|]. repeat split.
Qed.

Lemma decrementParticleCount_drops_last
    (array : list ParticleNode.t) (node : ParticleNode.t) (layer : list Child) :
  In (ParticleNode.id node) (childIds layer) ->
  exists layer',
    decrementParticleCount (array ++ [node])
      (Z.of_nat (List.length (array ++ [node]))) layer
      = Returns (array, Z.of_nat (List.length array), layer') /\
    Permutation (childIds layer) (ParticleNode.id node :: childIds layer').
Proof.
  intros Hin. unfold decrementParticleCount.
  rewrite length_app. simpl.
  replace (Z.of_nat (List.length array + 1) - 1)
    with (Z.of_nat (List.length array)) by lia.
  rewrite at_index_last.
  destruct (removeChild_child layer node Hin) as (layer' & -> & Hp).
  exists layer'. rewrite Nat2Z.id, splice1_last. split; [reflexivity|exact Hp].
Qed.

Lemma decrementParticleCount_empty (layer : list Child) (quantity : Z) :
  quantity <= 0 ->
  decrementParticleCount [] quantity layer = Fails NotANode.
Proof.
  intros Hq. unfold decrementParticleCount, at_index.
  destruct (Z.ltb_spec (quantity - 1) 0); [reflexivity|lia].
Qed.

Lemma rowInSlots_snoc (particleType : string) (startX startY : float)
    (array : list ParticleNode.t) (node : ParticleNode.t) :
  rowInSlots maxParticles maxWidth protonTitle_right particleType startX startY array ->
  inSlot maxParticles maxWidth protonTitle_right particleType startX startY (List.length array) node ->
  rowInSlots maxParticles maxWidth protonTitle_right particleType startX startY (array ++ [node]).
Proof.
  intros Hrow Hnode index nd Hnth.
  destruct (Nat.lt_ge_cases index (List.length array)) as [Hlt|Hge].
  - rewrite nth_error_app1 in Hnth by assumption. exact (Hrow index nd Hnth).
  - pose proof (nth_error_in_range _ _ _ Hnth) as Hr.
    rewrite length_app in Hr. simpl in Hr.
    assert (index = List.length array) as -> by lia.
    rewrite nth_error_app2, Nat.sub_diag in Hnth by lia.
    injection Hnth as <-. exact Hnode.
Qed.

Lemma rowInSlots_init (particleType : string) (startX startY : float)
    (array : list ParticleNode.t) (node : ParticleNode.t) :
  rowInSlots maxParticles maxWidth protonTitle_right particleType startX startY (array ++ [node]) ->
  rowInSlots maxParticles maxWidth protonTitle_right particleType startX startY array.
Proof.
  intros Hrow index nd Hnth. apply (Hrow index nd).
  rewrite nth_error_app1; [exact Hnth|].
  exact (nth_error_in_range _ _ _ Hnth).
Qed.

Lemma fresh_id_NoDup (ids : list nat) (fresh : nat) :
  NoDup ids -> (forall i, In i ids -> (i < fresh)%nat) ->
  NoDup (ids ++ [fresh]) /\
  (forall i, In i (ids ++ [fresh]) -> (i < S fresh)%nat).
Proof.
  intros ND Bound. split.
  - apply (Permutation_NoDup (Permutation_app_comm [fresh] ids)).
    simpl. constructor; [|exact ND].
    intros Hin. apply Bound in Hin. lia.
  - intros i Hin. apply in_app_or in Hin. destruct Hin as [Hin|[<-|[]]].
    + apply Bound in Hin. lia.
    + lia.
Qed.

(** One more proton: a new node, at the end of the row and of the layer. *)
Lemma addProton_step (self : t) :
  wellFormed maxParticles maxWidth protonTitle_right protonTitle_center_y neutronTitle_right neutronTitle_center_y self ->
  exists self' node,
    addProton assert maxParticles maxWidth protonTitle_right protonTitle_center_y self = Returns self' /\
    wellFormed maxParticles maxWidth protonTitle_right protonTitle_center_y neutronTitle_right neutronTitle_center_y self' /\
    protonDisplayCount self' = protonDisplayCount self + 1 /\
    protons self' = (protons self ++ [node])%list /\
    neutronDisplayCount self' = neutronDisplayCount self /\
    neutrons self' = neutrons self /\
    nextId self' = S (nextId self).
Proof.
  destruct self as [layer ps ns pc nc fresh].
  unfold wellFormed. simpl.
  intros (Hp & Hn & Rp & Rn & Perm & ND & Bound).
  unfold addProton. simpl. subst pc.
  destruct (incrementParticleCount_pushes ps "proton"
              ParticleNode.RED_COLORBLIND
              (nucleonRadius maxParticles maxWidth protonTitle_right)
              (protonTitle_right + interParticleSpacing maxParticles maxWidth protonTitle_right)%float
              protonTitle_center_y layer fresh eq_refl)
    as (node & E & Hid & Hty & Hr & Hx & Hy & Hm).
  rewrite E. eexists; exists node. split; [reflexivity|]. simpl.
  destruct (fresh_id_NoDup (childIds layer) fresh ND Bound) as [ND' Bound'].
  split; [|simpl; repeat split; reflexivity].
  split; [|split; [|split; [|split; [|split; [|split]]]]]; simpl;
    try assumption.
  - rewrite length_app. simpl. lia.
  - apply rowInSlots_snoc; [exact Rp|]. unfold inSlot. now repeat split.
  - rewrite childIds_app, map_app. simpl. rewrite Hid.
    rewrite <- app_assoc.
    apply Permutation_trans with ((map ParticleNode.id ps
                                     ++ map ParticleNode.id ns) ++ [fresh])%list.
    + now apply Permutation_app_tail.
    + rewrite <- app_assoc. apply Permutation_app_head.
      apply Permutation_app_comm.
  - rewrite childIds_app. simpl. rewrite Hid. exact ND'.
  - rewrite childIds_app. simpl. rewrite Hid. exact Bound'.
Qed.

Lemma addNeutron_step (self : t) :
  wellFormed maxParticles maxWidth protonTitle_right protonTitle_center_y neutronTitle_right neutronTitle_center_y self ->
  exists self' node,
    addNeutron assert maxParticles maxWidth protonTitle_right neutronTitle_right neutronTitle_center_y self = Returns self' /\
    wellFormed maxParticles maxWidth protonTitle_right protonTitle_center_y neutronTitle_right neutronTitle_center_y self' /\
    neutronDisplayCount self' = neutronDisplayCount self + 1 /\
    neutrons self' = (neutrons self ++ [node])%list /\
    protonDisplayCount self' = protonDisplayCount self /\
    protons self' = protons self /\
    nextId self' = S (nextId self).
Proof.
  destruct self as [layer ps ns pc nc fresh].
  unfold wellFormed. simpl.
  intros (Hp & Hn & Rp & Rn & Perm & ND & Bound).
  unfold addNeutron. simpl. subst nc.
  destruct (incrementParticleCount_pushes ns "neutron"
              (ParticleNode.Css "gray")
              (nucleonRadius maxParticles maxWidth protonTitle_right)
              (neutronTitle_right + interParticleSpacing maxParticles maxWidth protonTitle_right)%float
              neutronTitle_center_y layer fresh eq_refl)
    as (node & E & Hid & Hty & Hr & Hx & Hy & Hm).
  rewrite E. eexists; exists node. split; [reflexivity|]. simpl.
  destruct (fresh_id_NoDup (childIds layer) fresh ND Bound) as [ND' Bound'].
  split; [|simpl; repeat split; reflexivity].
  split; [|split; [|split; [|split; [|split; [|split]]]]]; simpl;
    try assumption.
  - rewrite length_app. simpl. lia.
  - apply rowInSlots_snoc; [exact Rn|]. unfold inSlot. now repeat split.
  - rewrite childIds_app, map_app. simpl. rewrite Hid.
    rewrite app_assoc. now apply Permutation_app_tail.
  - rewrite childIds_app. simpl. rewrite Hid. exact ND'.
  - rewrite childIds_app. simpl. rewrite Hid. exact Bound'.
Qed.

Lemma nonempty_snoc {A} (l : list A) :
  (0 < List.length l)%nat -> exists init x, l = (init ++ [x])%list.
Proof.
  intros Hl. destruct (exists_last (l := l)) as (init & x & ->).
  - destruct l; [simpl in Hl; lia|discriminate].
  - now exists init, x.
Qed.

(** One proton fewer: the last node of the row leaves the row and the
    layer. *)
Lemma removeProton_step (self : t) :
  wellFormed maxParticles maxWidth protonTitle_right protonTitle_center_y neutronTitle_right neutronTitle_center_y self ->
  0 < protonDisplayCount self ->
  exists self' node,
    removeProton self = Returns self' /\
    wellFormed maxParticles maxWidth protonTitle_right protonTitle_center_y neutronTitle_right neutronTitle_center_y self' /\
    protonDisplayCount self' = protonDisplayCount self - 1 /\
    protons self = (protons self' ++ [node])%list /\
    neutronDisplayCount self' = neutronDisplayCount self /\
    neutrons self' = neutrons self /\
    nextId self' = nextId self.
Proof.
  destruct self as [layer ps ns pc nc fresh].
  unfold wellFormed. simpl.
  intros (Hp & Hn & Rp & Rn & Perm & ND & Bound) Hpos.
  destruct (nonempty_snoc ps ltac:(lia)) as (init & node & ->).
  assert (Hin : In (ParticleNode.id node) (childIds layer)).
  { apply (Permutation_in _ (Permutation_sym Perm)).
    rewrite map_app. simpl. apply in_or_app. left. apply in_or_app. right.
    now left. }
  unfold removeProton. simpl. subst pc.
  destruct (decrementParticleCount_drops_last init node layer Hin)
    as (layer' & E & Hperm).
  rewrite E. eexists; exists node. split; [reflexivity|]. simpl.
  assert (ND' : NoDup (ParticleNode.id node :: childIds layer'))
    by exact (Permutation_NoDup Hperm ND).
  split; [|simpl; repeat split; try reflexivity; rewrite length_app; simpl; lia].
  split; [|split; [|split; [|split; [|split; [|split]]]]]; simpl;
    try assumption; try reflexivity.
  - exact (rowInSlots_init _ _ _ _ _ Rp).
  - apply (Permutation_cons_inv (a := ParticleNode.id node)).
    apply Permutation_trans with (childIds layer);
      [now apply Permutation_sym|].
    apply (Permutation_trans Perm).
    rewrite map_app. simpl. rewrite <- app_assoc. simpl.
    apply Permutation_sym, Permutation_middle.
  - now inversion ND'.
  - intros i Hi. apply Bound.
    apply (Permutation_in _ (Permutation_sym Hperm)). now right.
Qed.

Lemma removeNeutron_step (self : t) :
  wellFormed maxParticles maxWidth protonTitle_right protonTitle_center_y neutronTitle_right neutronTitle_center_y self ->
  0 < neutronDisplayCount self ->
  exists self' node,
    removeNeutron self = Returns self' /\
    wellFormed maxParticles maxWidth protonTitle_right protonTitle_center_y neutronTitle_right neutronTitle_center_y self' /\
    neutronDisplayCount self' = neutronDisplayCount self - 1 /\
    neutrons self = (neutrons self' ++ [node])%list /\
    protonDisplayCount self' = protonDisplayCount self /\
    protons self' = protons self /\
    nextId self' = nextId self.
Proof.
  destruct self as [layer ps ns pc nc fresh].
  unfold wellFormed. simpl.
  intros (Hp & Hn & Rp & Rn & Perm & ND & Bound) Hpos.
  destruct (nonempty_snoc ns ltac:(lia)) as (init & node & ->).
  assert (Hin : In (ParticleNode.id node) (childIds layer)).
  { apply (Permutation_in _ (Permutation_sym Perm)).
    rewrite map_app. simpl. apply in_or_app. right. apply in_or_app. right.
    now left. }
  unfold removeNeutron. simpl. subst nc.
  destruct (decrementParticleCount_drops_last init node layer Hin)
    as (layer' & E & Hperm).
  rewrite E. eexists; exists node. split; [reflexivity|]. simpl.
  assert (ND' : NoDup (ParticleNode.id node :: childIds layer'))
    by exact (Permutation_NoDup Hperm ND).
  split; [|simpl; repeat split; try reflexivity; rewrite length_app; simpl; lia].
  split; [|split; [|split; [|split; [|split; [|split]]]]]; simpl;
    try assumption; try reflexivity.
  - exact (rowInSlots_init _ _ _ _ _ Rn).
  - apply (Permutation_cons_inv (a := ParticleNode.id node)).
    apply Permutation_trans with (childIds layer);
      [now apply Permutation_sym|].
    apply (Permutation_trans Perm).
    rewrite map_app. simpl. rewrite app_assoc.
    apply Permutation_sym, Permutation_cons_append.
  - now inversion ND'.
  - intros i Hi. apply Bound.
    apply (Permutation_in _ (Permutation_sym Hperm)). now right.
Qed.

Ltac conj_each := repeat match goal with |- _ /\ _ => split end.

Lemma grow_protons (target : Z) (k : nat) :
  forall (self : t) (fuel : nat),
    wellFormed maxParticles maxWidth protonTitle_right protonTitle_center_y neutronTitle_right neutronTitle_center_y self ->
    Z.to_nat (target - protonDisplayCount self) = k ->
    (k < fuel)%nat ->
    exists self' added,
      while fuel (fun s => target >? protonDisplayCount s)
        (addProton assert maxParticles maxWidth protonTitle_right protonTitle_center_y) self = Returns self' /\
      wellFormed maxParticles maxWidth protonTitle_right protonTitle_center_y neutronTitle_right neutronTitle_center_y self' /\
      protonDisplayCount self' = Z.max target (protonDisplayCount self) /\
      protons self' = (protons self ++ added)%list /\
      List.length added = k /\
      neutronDisplayCount self' = neutronDisplayCount self /\
      neutrons self' = neutrons self /\
      nextId self' = (nextId self + k)%nat.
Proof.
  induction k as [|k IH]; intros self fuel W Hk Hf;
    (destruct fuel as [|fuel]; [lia|]); simpl.
  - destruct (Z.gtb_spec target (protonDisplayCount self)) as [Hgt|Hle];
      [lia|].
    exists self, []. rewrite app_nil_r, Nat.add_0_r.
    conj_each; try assumption; try reflexivity. lia.
  - destruct (Z.gtb_spec target (protonDisplayCount self)) as [Hgt|Hle];
      [|lia].
    destruct (addProton_step self W)
      as (s1 & node & E & W1 & C1 & A1 & OC1 & O1 & F1).
    rewrite E.
    destruct (IH s1 fuel W1 ltac:(lia) ltac:(lia))
      as (s2 & added & E2 & W2 & C2 & A2 & L2 & OC2 & O2 & F2).
    exists s2, (node :: added). rewrite E2.
    conj_each; try assumption; try reflexivity.
    + lia.
    + rewrite A2, A1, <- app_assoc. reflexivity.
    + simpl. now rewrite L2.
    + congruence.
    + congruence.
    + lia.
Qed.

Lemma shrink_protons (target : Z) (k : nat) :
  forall (self : t) (fuel : nat),
    wellFormed maxParticles maxWidth protonTitle_right protonTitle_center_y neutronTitle_right neutronTitle_center_y self ->
    0 <= target ->
    Z.to_nat (protonDisplayCount self - target) = k ->
    (k < fuel)%nat ->
    exists self' dropped,
      while fuel (fun s => target <? protonDisplayCount s)
        removeProton self = Returns self' /\
      wellFormed maxParticles maxWidth protonTitle_right protonTitle_center_y neutronTitle_right neutronTitle_center_y self' /\
      protonDisplayCount self' = Z.min target (protonDisplayCount self) /\
      protons self = (protons self' ++ dropped)%list /\
      List.length dropped = k /\
      neutronDisplayCount self' = neutronDisplayCount self /\
      neutrons self' = neutrons self /\
      nextId self' = nextId self.
Proof.
  induction k as [|k IH]; intros self fuel W Ht Hk Hf;
    (destruct fuel as [|fuel]; [lia|]); simpl.
  - destruct (Z.ltb_spec target (protonDisplayCount self)) as [Hlt|Hge];
      [lia|].
    exists self, []. rewrite app_nil_r.
    conj_each; try assumption; try reflexivity. lia.
  - destruct (Z.ltb_spec target (protonDisplayCount self)) as [Hlt|Hge];
      [|lia].
    destruct (removeProton_step self W ltac:(lia))
      as (s1 & node & E & W1 & C1 & A1 & OC1 & O1 & F1).
    rewrite E.
    destruct (IH s1 fuel W1 Ht ltac:(lia) ltac:(lia))
      as (s2 & dropped & E2 & W2 & C2 & A2 & L2 & OC2 & O2 & F2).
    exists s2, (dropped ++ [node])%list. rewrite E2.
    conj_each; try assumption; try reflexivity.
    + lia.
    + rewrite A1, A2, <- app_assoc. reflexivity.
    + rewrite length_app. simpl. lia.
    + congruence.
    + congruence.
    + congruence.
Qed.

Lemma grow_neutrons (target : Z) (k : nat) :
  forall (self : t) (fuel : nat),
    wellFormed maxParticles maxWidth protonTitle_right protonTitle_center_y neutronTitle_right neutronTitle_center_y self ->
    Z.to_nat (target - neutronDisplayCount self) = k ->
    (k < fuel)%nat ->
    exists self' added,
      while fuel (fun s => target >? neutronDisplayCount s)
        (addNeutron assert maxParticles maxWidth protonTitle_right neutronTitle_right neutronTitle_center_y) self = Returns self' /\
      wellFormed maxParticles maxWidth protonTitle_right protonTitle_center_y neutronTitle_right neutronTitle_center_y self' /\
      neutronDisplayCount self' = Z.max target (neutronDisplayCount self) /\
      neutrons self' = (neutrons self ++ added)%list /\
      List.length added = k /\
      protonDisplayCount self' = protonDisplayCount self /\
      protons self' = protons self /\
      nextId self' = (nextId self + k)%nat.
Proof.
  induction k as [|k IH]; intros self fuel W Hk Hf;
    (destruct fuel as [|fuel]; [lia|]); simpl.
  - destruct (Z.gtb_spec target (neutronDisplayCount self)) as [Hgt|Hle];
      [lia|].
    exists self, []. rewrite app_nil_r, Nat.add_0_r.
    conj_each; try assumption; try reflexivity. lia.
  - destruct (Z.gtb_spec target (neutronDisplayCount self)) as [Hgt|Hle];
      [|lia].
    destruct (addNeutron_step self W)
      as (s1 & node & E & W1 & C1 & A1 & OC1 & O1 & F1).
    rewrite E.
    destruct (IH s1 fuel W1 ltac:(lia) ltac:(lia))
      as (s2 & added & E2 & W2 & C2 & A2 & L2 & OC2 & O2 & F2).
    exists s2, (node :: added). rewrite E2.
    conj_each; try assumption; try reflexivity.
    + lia.
    + rewrite A2, A1, <- app_assoc. reflexivity.
    + simpl. now rewrite L2.
    + congruence.
    + congruence.
    + lia.
Qed.

Lemma shrink_neutrons (target : Z) (k : nat) :
  forall (self : t) (fuel : nat),
    wellFormed maxParticles maxWidth protonTitle_right protonTitle_center_y neutronTitle_right neutronTitle_center_y self ->
    0 <= target ->
    Z.to_nat (neutronDisplayCount self - target) = k ->
    (k < fuel)%nat ->
    exists self' dropped,
      while fuel (fun s => target <? neutronDisplayCount s)
        removeNeutron self = Returns self' /\
      wellFormed maxParticles maxWidth protonTitle_right protonTitle_center_y neutronTitle_right neutronTitle_center_y self' /\
      neutronDisplayCount self' = Z.min target (neutronDisplayCount self) /\
      neutrons self = (neutrons self' ++ dropped)%list /\
      List.length dropped = k /\
      protonDisplayCount self' = protonDisplayCount self /\
      protons self' = protons self /\
      nextId self' = nextId self.
Proof.
  induction k as [|k IH]; intros self fuel W Ht Hk Hf;
    (destruct fuel as [|fuel]; [lia|]); simpl.
  - destruct (Z.ltb_spec target (neutronDisplayCount self)) as [Hlt|Hge];
      [lia|].
    exists self, []. rewrite app_nil_r.
    conj_each; try assumption; try reflexivity. lia.
  - destruct (Z.ltb_spec target (neutronDisplayCount self)) as [Hlt|Hge];
      [|lia].
    destruct (removeNeutron_step self W ltac:(lia))
      as (s1 & node & E & W1 & C1 & A1 & OC1 & O1 & F1).
    rewrite E.
    destruct (IH s1 fuel W1 Ht ltac:(lia) ltac:(lia))
      as (s2 & dropped & E2 & W2 & C2 & A2 & L2 & OC2 & O2 & F2).
    exists s2, (dropped ++ [node])%list. rewrite E2.
    conj_each; try assumption; try reflexivity.
    + lia.
    + rewrite A1, A2, <- app_assoc. reflexivity.
    + rewrite length_app. simpl. lia.
    + congruence.
    + congruence.
    + congruence.
Qed.

(** Below zero there is nothing to show: the loop takes the row apart and
    then asks the layer to remove [array[ -1 ]]. *)
Lemma drain_protons (target : Z) (k : nat) :
  forall (self : t) (fuel : nat),
    wellFormed maxParticles maxWidth protonTitle_right protonTitle_center_y neutronTitle_right neutronTitle_center_y self ->
    target < 0 ->
    List.length (protons self) = k ->
    (k < fuel)%nat ->
    while fuel (fun s => target <? protonDisplayCount s) removeProton self
      = Fails NotANode.
Proof.
  induction k as [|k IH]; intros self fuel W Ht Hk Hf;
    (destruct fuel as [|fuel]; [lia|]); simpl;
    pose proof W as (Hp & _);
    (destruct (Z.ltb_spec target (protonDisplayCount self)) as [Hlt|Hge];
     [|lia]).
  - unfold removeProton.
    destruct (protons self); [|discriminate].
    rewrite decrementParticleCount_empty by (simpl in Hp; lia). reflexivity.
  - destruct (removeProton_step self W ltac:(lia))
      as (s1 & node & E & W1 & C1 & A1 & _).
    rewrite E. apply (IH s1 fuel W1 Ht); [|lia].
    rewrite A1, length_app in Hk. simpl in Hk. lia.
Qed.

Lemma firstn_shared {A} (kept added dropped l l' : list A) :
  l' = (l ++ added)%list -> l' = (kept ++ dropped)%list ->
  added = [] \/ dropped = [] ->
  firstn (Nat.min (List.length l) (List.length kept)) kept
    = firstn (Nat.min (List.length l) (List.length kept)) l.
Proof.
  intros H1 H2 [->| ->].
  - rewrite app_nil_r in H1. subst l'. subst l.
    rewrite length_app.
    replace (Nat.min (List.length kept + List.length dropped) (List.length kept))
      with (List.length kept) by lia.
    rewrite firstn_all.
    rewrite firstn_app, Nat.sub_diag, firstn_all. simpl. now rewrite app_nil_r.
  - rewrite app_nil_r in H2. subst l'. subst kept.
    rewrite length_app.
    replace (Nat.min (List.length l) (List.length l + List.length added))
      with (List.length l) by lia.
    rewrite firstn_all.
    rewrite firstn_app, Nat.sub_diag, firstn_all. simpl. now rewrite app_nil_r.
Qed.

Lemma length_zero_nil {A} (l : list A) : List.length l = 0%nat -> l = [].
Proof. destruct l; [reflexivity|discriminate]. Qed.

(** Everything [updateParticles] does for counts that are not negative. *)
Lemma updateParticles_outcome (fuel : nat) (atom : NumberAtom) (self : t) :
  wellFormed maxParticles maxWidth protonTitle_right protonTitle_center_y neutronTitle_right neutronTitle_center_y self ->
  0 <= protonCount atom -> 0 <= neutronCount atom ->
  Z.abs (protonCount atom - protonDisplayCount self) < Z.of_nat fuel ->
  Z.abs (neutronCount atom - neutronDisplayCount self) < Z.of_nat fuel ->
  exists self',
    updateParticles assert maxParticles maxWidth protonTitle_right protonTitle_center_y neutronTitle_right neutronTitle_center_y fuel atom self = Returns self' /\
    wellFormed maxParticles maxWidth protonTitle_right protonTitle_center_y neutronTitle_right neutronTitle_center_y self' /\
    protonDisplayCount self' = protonCount atom /\
    neutronDisplayCount self' = neutronCount atom /\
    nextId self'
      = (nextId self
         + Z.to_nat (protonCount atom - protonDisplayCount self)
         + Z.to_nat (neutronCount atom - neutronDisplayCount self))%nat /\
    firstn (Nat.min (List.length (protons self)) (List.length (protons self')))
      (protons self')
      = firstn (Nat.min (List.length (protons self))
                  (List.length (protons self'))) (protons self) /\
    firstn (Nat.min (List.length (neutrons self)) (List.length (neutrons self')))
      (neutrons self')
      = firstn (Nat.min (List.length (neutrons self))
                  (List.length (neutrons self'))) (neutrons self).
Proof.
  unfold protonCount, neutronCount.
  intros W Hp Hn Fp Fn.
  unfold updateParticles.
  destruct (grow_protons (value (protonCountProperty atom)) _ self fuel W
              eq_refl ltac:(lia))
    as (s1 & added & E1 & W1 & C1 & A1 & L1 & OC1 & O1 & F1).
  rewrite E1. simpl.
  destruct (shrink_protons (value (protonCountProperty atom)) _ s1 fuel W1 Hp
              eq_refl ltac:(lia))
    as (s2 & dropped & E2 & W2 & C2 & A2 & L2 & OC2 & O2 & F2).
  rewrite E2. simpl.
  destruct (grow_neutrons (value (neutronCountProperty atom)) _ s2 fuel W2
              eq_refl ltac:(lia))
    as (s3 & added' & E3 & W3 & C3 & A3 & L3 & OC3 & O3 & F3).
  rewrite E3. simpl.
  destruct (shrink_neutrons (value (neutronCountProperty atom)) _ s3 fuel W3 Hn
              eq_refl ltac:(lia))
    as (s4 & dropped' & E4 & W4 & C4 & A4 & L4 & OC4 & O4 & F4).
  rewrite E4.
  exists s4. split; [reflexivity|]. split; [exact W4|].
  split; [lia|]. split; [lia|]. split; [lia|].
  split.
  - rewrite O4, O3.
    apply (firstn_shared (protons s2) added dropped (protons self) (protons s1));
      [exact A1|exact A2|].
    destruct (Z.le_ge_cases (value (protonCountProperty atom))
                (protonDisplayCount self)).
    + left. apply length_zero_nil. lia.
    + right. apply length_zero_nil. lia.
  - rewrite <- O1, <- O2.
    apply (firstn_shared (neutrons s4) added' dropped' (neutrons s2)
             (neutrons s3)); [exact A3|exact A4|].
    destruct (Z.le_ge_cases (value (neutronCountProperty atom))
                (neutronDisplayCount s2)).
    + left. apply length_zero_nil. lia.
    + right. apply length_zero_nil. lia.
Qed.

Lemma while_done (fuel : nat) (condition : t -> bool) (body : t -> run t)
    (self : t) :
  (0 < fuel)%nat -> condition self = false ->
  while fuel condition body self = Returns self.
Proof.
  intros Hf Hc. destruct fuel as [|fuel]; [lia|]. simpl. now rewrite Hc.
Qed.

Lemma initial_wellFormed : wellFormed maxParticles maxWidth protonTitle_right protonTitle_center_y neutronTitle_right neutronTitle_center_y initial.
Proof.
  unfold wellFormed, initial. simpl.
  split; [reflexivity|]. split; [reflexivity|].
  split; [intros [|i] node H; discriminate|].
  split; [intros [|i] node H; discriminate|].
  split; [constructor|]. split; [constructor|]. intros i [].
Qed.

(** An update of a display that already shows the atom's counts does
    nothing. *)
Lemma updateParticles_in_step (fuel : nat) (atom : NumberAtom) (self : t) :
  protonDisplayCount self = protonCount atom ->
  neutronDisplayCount self = neutronCount atom ->
  (0 < fuel)%nat ->
  updateParticles assert maxParticles maxWidth protonTitle_right protonTitle_center_y neutronTitle_right neutronTitle_center_y fuel atom self = Returns self.
Proof.
  unfold protonCount, neutronCount. intros Hp Hn Hf.
  destruct fuel as [|fuel]; [lia|].
  unfold updateParticles. cbn [while]. rewrite Hp.
  destruct (Z.gtb_spec (value (protonCountProperty atom))
              (value (protonCountProperty atom))); [lia|].
  cbn [andThen while]. rewrite Hp, Z.ltb_irrefl.
  cbn [andThen while]. rewrite Hn.
  destruct (Z.gtb_spec (value (neutronCountProperty atom))
              (value (neutronCountProperty atom))); [lia|].
  cbn [andThen while]. now rewrite Hn, Z.ltb_irrefl.
Qed.

(** X18.  For an atom whose proton and neutron counts are not negative, an update
    of a well-formed display returns, given loops enough turns, and then the
    display is well formed again and shows exactly as many proton and neutron
    nodes as the atom has protons and neutrons, each in its slot. *)
Theorem updateParticles_shows_counts
    (fuel : nat) (atom : NumberAtom) (self : t) :
  wellFormed maxParticles maxWidth protonTitle_right protonTitle_center_y neutronTitle_right neutronTitle_center_y self ->
  0 <= protonCount atom -> 0 <= neutronCount atom ->
  Z.abs (protonCount atom - protonDisplayCount self) < Z.of_nat fuel ->
  Z.abs (neutronCount atom - neutronDisplayCount self) < Z.of_nat fuel ->
  exists self',
    updateParticles assert maxParticles maxWidth protonTitle_right protonTitle_center_y neutronTitle_right neutronTitle_center_y fuel atom self = Returns self' /\
    wellFormed maxParticles maxWidth protonTitle_right protonTitle_center_y neutronTitle_right neutronTitle_center_y self' /\
    protonDisplayCount self' = protonCount atom /\
    neutronDisplayCount self' = neutronCount atom /\
    Z.of_nat (List.length (protons self')) = protonCount atom /\
    Z.of_nat (List.length (neutrons self')) = neutronCount atom.
Proof.
  intros W Hp Hn Fp Fn.
  destruct (updateParticles_outcome fuel atom self W Hp Hn Fp Fn)
    as (self' & E & W' & Cp & Cn & _).
  exists self'. pose proof W' as (Lp & Ln & _).
  conj_each; try assumption; congruence.
Qed.

(** X19.  An update makes one new node for every particle it adds, whatever was
    shown and removed before: a node taken out of a row is never put back.
    The nodes that stay are the first ones of the row, unchanged. *)
Theorem updateParticles_makes_new_nodes
    (fuel : nat) (atom : NumberAtom) (self : t) :
  wellFormed maxParticles maxWidth protonTitle_right protonTitle_center_y neutronTitle_right neutronTitle_center_y self ->
  0 <= protonCount atom -> 0 <= neutronCount atom ->
  Z.abs (protonCount atom - protonDisplayCount self) < Z.of_nat fuel ->
  Z.abs (neutronCount atom - neutronDisplayCount self) < Z.of_nat fuel ->
  exists self',
    updateParticles assert maxParticles maxWidth protonTitle_right protonTitle_center_y neutronTitle_right neutronTitle_center_y fuel atom self = Returns self' /\
    nextId self'
      = (nextId self
         + Z.to_nat (protonCount atom - protonDisplayCount self)
         + Z.to_nat (neutronCount atom - neutronDisplayCount self))%nat /\
    firstn (Nat.min (List.length (protons self)) (List.length (protons self')))
      (protons self')
      = firstn (Nat.min (List.length (protons self))
                  (List.length (protons self'))) (protons self) /\
    firstn (Nat.min (List.length (neutrons self)) (List.length (neutrons self')))
      (neutrons self')
      = firstn (Nat.min (List.length (neutrons self))
                  (List.length (neutrons self'))) (neutrons self).
Proof.
  intros W Hp Hn Fp Fn.
  destruct (updateParticles_outcome fuel atom self W Hp Hn Fp Fn)
    as (self' & E & _ & _ & _ & Hid & Pp & Pn).
  exists self'. conj_each; assumption.
Qed.

(** X20.  The constructor, for an atom whose proton and neutron counts are not
    negative: it returns, the display shows the atom's counts, made of
    [protonCount + neutronCount] nodes, and the second of its two updates
    changes nothing. *)
Theorem new_ParticleCountDisplay_shows_atom
    (fuel : nat) (numberAtom : NumberAtom) :
  0 <= protonCount numberAtom < Z.of_nat fuel ->
  0 <= neutronCount numberAtom < Z.of_nat fuel ->
  exists self,
    new_ParticleCountDisplay assert maxParticles maxWidth protonTitle_right protonTitle_center_y neutronTitle_right neutronTitle_center_y fuel numberAtom = Returns self /\
    updateParticles assert maxParticles maxWidth protonTitle_right protonTitle_center_y neutronTitle_right neutronTitle_center_y fuel numberAtom initial = Returns self /\
    wellFormed maxParticles maxWidth protonTitle_right protonTitle_center_y neutronTitle_right neutronTitle_center_y self /\
    Z.of_nat (List.length (protons self)) = protonCount numberAtom /\
    Z.of_nat (List.length (neutrons self)) = neutronCount numberAtom /\
    Z.of_nat (nextId self) = protonCount numberAtom + neutronCount numberAtom.
Proof.
  intros Hp Hn.
  destruct (updateParticles_outcome fuel numberAtom initial initial_wellFormed
              ltac:(lia) ltac:(lia) ltac:(simpl; lia) ltac:(simpl; lia))
    as (self & E & W & Cp & Cn & Hid & _).
  exists self. unfold new_ParticleCountDisplay. rewrite E. simpl.
  pose proof W as (Lp & Ln & _). simpl in Hid.
  rewrite !Z.sub_0_r in Hid.
  conj_each; try assumption; try congruence; try lia.
  apply updateParticles_in_step; [assumption|assumption|lia].
Qed.

(** X21.  A negative proton count cannot be shown: the update takes the proton row
    apart and then hands the layer [protons[ -1 ]], which is not a node. *)
Theorem updateParticles_negative_protons
    (fuel : nat) (atom : NumberAtom) (self : t) :
  wellFormed maxParticles maxWidth protonTitle_right protonTitle_center_y neutronTitle_right neutronTitle_center_y self ->
  protonCount atom < 0 ->
  (List.length (protons self) < fuel)%nat ->
  updateParticles assert maxParticles maxWidth protonTitle_right protonTitle_center_y neutronTitle_right neutronTitle_center_y fuel atom self = Fails NotANode.
Proof.
  unfold protonCount. intros W Hp Hf.
  pose proof W as (Lp & _).
  unfold updateParticles.
  rewrite while_done; [|lia|].
  - cbn [andThen].
    now rewrite (drain_protons (value (protonCountProperty atom)) _ self fuel
                   W Hp eq_refl Hf).
  - destruct (Z.gtb_spec (value (protonCountProperty atom))
                (protonDisplayCount self)); [lia|reflexivity].
Qed.

End DisplayProperties.

Lemma updateParticles_shows_counts_witness :
  exists self',
    ParticleCountDisplay.updateParticles true 10 200 50 8 50 24 3 (new_NumberAtom (withCounts 2 1 2)) ParticleCountDisplay.initial
      = ParticleCountDisplay.Returns self' /\
    ParticleCountDisplay.wellFormed 10 200 50 8 50 24 self' /\
    ParticleCountDisplay.protonDisplayCount self'
      = protonCount (new_NumberAtom (withCounts 2 1 2)) /\
    ParticleCountDisplay.neutronDisplayCount self'
      = neutronCount (new_NumberAtom (withCounts 2 1 2)) /\
    Z.of_nat (List.length (ParticleCountDisplay.protons self'))
      = protonCount (new_NumberAtom (withCounts 2 1 2)) /\
    Z.of_nat (List.length (ParticleCountDisplay.neutrons self'))
      = neutronCount (new_NumberAtom (withCounts 2 1 2)).
Proof.
  apply (updateParticles_shows_counts true 10 200 50 8 50 24 3
           (new_NumberAtom (withCounts 2 1 2)) ParticleCountDisplay.initial).
  - apply initial_wellFormed.
  - unfold protonCount, neutronCount; simpl; lia.
  - unfold protonCount, neutronCount; simpl; lia.
  - unfold protonCount, neutronCount; simpl; lia.
  - unfold protonCount, neutronCount; simpl; lia.
Defined.

Lemma updateParticles_makes_new_nodes_witness :
  exists self',
    ParticleCountDisplay.updateParticles true 10 200 50 8 50 24 3 (new_NumberAtom (withCounts 2 1 2)) ParticleCountDisplay.initial
      = ParticleCountDisplay.Returns self' /\
    ParticleCountDisplay.nextId self'
      = (0 + Z.to_nat (2 - 0) + Z.to_nat (1 - 0))%nat /\
    firstn (Nat.min 0 (List.length (ParticleCountDisplay.protons self')))
      (ParticleCountDisplay.protons self')
      = firstn (Nat.min 0 (List.length (ParticleCountDisplay.protons self')))
          [] /\
    firstn (Nat.min 0 (List.length (ParticleCountDisplay.neutrons self')))
      (ParticleCountDisplay.neutrons self')
      = firstn (Nat.min 0 (List.length (ParticleCountDisplay.neutrons self')))
          [].
Proof.
  apply (updateParticles_makes_new_nodes true 10 200 50 8 50 24 3
           (new_NumberAtom (withCounts 2 1 2)) ParticleCountDisplay.initial).
  - apply initial_wellFormed.
  - unfold protonCount, neutronCount; simpl; lia.
  - unfold protonCount, neutronCount; simpl; lia.
  - unfold protonCount, neutronCount; simpl; lia.
  - unfold protonCount, neutronCount; simpl; lia.
Defined.

Lemma new_ParticleCountDisplay_shows_atom_witness :
  exists self,
    ParticleCountDisplay.new_ParticleCountDisplay true 10 200 50 8 50 24 3 (new_NumberAtom (withCounts 2 1 2))
      = ParticleCountDisplay.Returns self /\
    ParticleCountDisplay.updateParticles true 10 200 50 8 50 24 3 (new_NumberAtom (withCounts 2 1 2)) ParticleCountDisplay.initial
      = ParticleCountDisplay.Returns self /\
    ParticleCountDisplay.wellFormed 10 200 50 8 50 24 self /\
    Z.of_nat (List.length (ParticleCountDisplay.protons self)) = 2 /\
    Z.of_nat (List.length (ParticleCountDisplay.neutrons self)) = 1 /\
    Z.of_nat (ParticleCountDisplay.nextId self) = 2 + 1.
Proof.
  apply (new_ParticleCountDisplay_shows_atom true 10 200 50 8 50 24 3
           (new_NumberAtom (withCounts 2 1 2)));
    unfold protonCount, neutronCount; simpl; lia.
Defined.

Lemma updateParticles_negative_protons_witness :
  ParticleCountDisplay.updateParticles true 10 200 50 8 50 24 1 (new_NumberAtom (withCounts (-1) 0 0)) ParticleCountDisplay.initial
    = ParticleCountDisplay.Fails ParticleCountDisplay.NotANode.
Proof.
  apply (updateParticles_negative_protons true 10 200 50 8 50 24 1
           (new_NumberAtom (withCounts (-1) 0 0)) ParticleCountDisplay.initial).
  - apply initial_wellFormed.
  - unfold protonCount, neutronCount; simpl; lia.
  - unfold protonCount, neutronCount; simpl; lia.
Defined.

(** ** Periodic table cells *)

Section CellProperties.

Import PeriodicTableCell.

Variable ENABLED_CELL_COLOR : string.
Variable getNumNeutronsInMostCommonIsotope : Z -> Z.
Variable initialFontWeight : string.

Lemma setHighlighted_fold_fills (highlights : list bool) (cell : t) :
  normalFill (fold_left (fun c h => setHighlighted h c) highlights cell)
    = normalFill cell /\
  highlightedFill (fold_left (fun c h => setHighlighted h c) highlights cell)
    = highlightedFill cell.
Proof.
  revert cell. induction highlights as [|h hs IH]; intros cell; [now split|].
  simpl. destruct (IH (setHighlighted h cell)) as [H1 H2].
  rewrite H1, H2. now split.
Qed.

(** X22.  However a cell has been highlighted and un-highlighted before,
    [setHighlighted( false )] gives it back the fill, stroke and line width
    the constructor gave it, and [setHighlighted( true )] gives it the
    selected fill, the red stroke and the line width 2. *)
Theorem setHighlighted_last_call_wins
    (atomicNumber : Z) (options : Options) (highlights : list bool)
    (highLighted : bool) :
  let cell0 :=
    new_PeriodicTableCell ENABLED_CELL_COLOR initialFontWeight
      atomicNumber options in
  let cell :=
    fold_left (fun c h => setHighlighted h c) (highlights ++ [highLighted])
      cell0 in
  (highLighted = false ->
   fill cell = fill cell0 /\ stroke cell = stroke cell0 /\
   lineWidth cell = lineWidth cell0) /\
  (highLighted = true ->
   fill cell = SELECTED_CELL_COLOR /\ stroke cell = RED_COLORBLIND /\
   lineWidth cell = 2).
Proof.
  intros cell0 cell. subst cell. rewrite fold_left_app. simpl.
  destruct (setHighlighted_fold_fills highlights cell0) as [H1 H2].
  split; intros ->; simpl; rewrite ?H1, ?H2; repeat split.
Qed.

Lemma handle_keeps (event : InputEvent) (cell cell' : t)
    (a a' : NumberAtom) (trace : list Event) :
  handle getNumNeutronsInMostCommonIsotope event cell a = Ok (cell', a', trace) ->
  options cell' = options cell /\
  hasInputListener cell' = hasInputListener cell.
Proof.
  unfold handle.
  destruct (hasInputListener cell) eqn:Hl.
  - destruct event as [|[| |]|].
    + destruct (setSubAtomicParticleCount _ _ _ a) as [[[u a1] t1]|e];
        [|discriminate].
      intros H; injection H as <- _ _. now rewrite Hl.
    + destruct (popOnTouch (options cell)); intros H; injection H as <- _ _;
        simpl; now rewrite ?Hl.
    + destruct (popOnTouch (options cell)); intros H; injection H as <- _ _;
        now rewrite Hl.
    + destruct (popOnTouch (options cell)); intros H; injection H as <- _ _;
        now rewrite Hl.
    + destruct (popOnTouch (options cell)); intros H; injection H as <- _ _;
        simpl; now rewrite ?Hl.
  - intros H; injection H as <- _ _. now rewrite Hl.
Qed.

Lemma handleAll_without_listener (events : list InputEvent) (cell : t)
    (a : NumberAtom) :
  hasInputListener cell = false ->
  handleAll getNumNeutronsInMostCommonIsotope events cell a = Ok (cell, a, []).
Proof.
  intros Hl. induction events as [|ev rest IH]; [reflexivity|].
  simpl. unfold handle. rewrite Hl. now rewrite IH.
Qed.

Lemma handleAll_releases (events : list InputEvent) :
  forall (cell cell' : t) (a a' : NumberAtom) (trace : list Event),
    live a -> hasInputListener cell = true ->
    handleAll getNumNeutronsInMostCommonIsotope events cell a
      = Ok (cell', a', trace) ->
    emissions trace = releases events /\ live a'.
Proof.
  induction events as [|ev rest IH]; intros cell cell' a a' trace L Hl H.
  - simpl in H. injection H as _ <- <-. now split.
  - simpl in H.
    destruct (handle getNumNeutronsInMostCommonIsotope ev cell a)
      as [[[c1 a1] t1]|e] eqn:E1; [|discriminate].
    destruct (handleAll getNumNeutronsInMostCommonIsotope rest c1 a1)
      as [[[c2 a2] t2]|e] eqn:E2; [|discriminate].
    injection H as <- <- <-.
    destruct (handle_keeps _ _ _ _ _ _ E1) as [_ Hl1]. rewrite Hl in Hl1.
    assert (H1 : emissions t1 = releases [ev] /\ live a1).
    { unfold handle in E1. rewrite Hl in E1.
      destruct ev as [|pt|].
      - destruct (setSubAtomicParticleCount_steps (atomicNumber cell)
                    (getNumNeutronsInMostCommonIsotope (atomicNumber cell))
                    (atomicNumber cell) a)
          as (b1 & b2 & b3 & u1 & u2 & u3 & _ & _ & _ & _ & ES & _ & _ & F3
              & _ & _ & _ & N).
        rewrite ES in E1. injection E1 as _ <- <-.
        pose proof (sameFlags_live _ _ F3 L) as L3.
        rewrite (live_emitted b3 L3), emissions_app, N. now split.
      - destruct (popOnTouch (options cell)); [destruct pt|];
          injection E1 as _ <- <-; now split.
      - destruct (popOnTouch (options cell));
          injection E1 as _ <- <-; now split. }
    destruct H1 as [N1 L1].
    destruct (IH c1 c2 a1 a2 t2 L1 Hl1 E2) as [N2 L2].
    split; [|exact L2].
    rewrite emissions_app, N1, N2. now destruct ev.
Qed.

Lemma handleAll_popup (events : list InputEvent) :
  forall (cell cell' : t) (a a' : NumberAtom) (trace : list Event),
    handleAll getNumNeutronsInMostCommonIsotope events cell a
      = Ok (cell', a', trace) ->
    popupVisible cell' = Some true ->
    (popupVisible cell = Some true /\
     (hasInputListener cell = true -> popOnTouch (options cell) = true ->
      ~ In exit events)) \/
    (hasInputListener cell = true /\ popOnTouch (options cell) = true /\
     exists before after,
       events = (before ++ over touch :: after)%list /\ ~ In exit after).
Proof.
  induction events as [|ev rest IH]; intros cell cell' a a' trace H V.
  - simpl in H. injection H as <- _ _. left. split; [exact V|]. intros _ _ [].
  - simpl in H.
    destruct (handle getNumNeutronsInMostCommonIsotope ev cell a)
      as [[[c1 a1] t1]|e] eqn:E1; [|discriminate].
    destruct (handleAll getNumNeutronsInMostCommonIsotope rest c1 a1)
      as [[[c2 a2] t2]|e] eqn:E2; [|discriminate].
    injection H as <- _ _.
    destruct (handle_keeps _ _ _ _ _ _ E1) as [Ho Hl].
    destruct (IH c1 c2 a1 a2 t2 E2 V) as [[V1 NE]|(L1 & P1 & before & after & -> & NE)].
    + unfold handle in E1.
      destruct (hasInputListener cell) eqn:Hlc.
      * destruct (popOnTouch (options cell)) eqn:Hpc.
        -- destruct ev as [|[| |]|].
           ++ destruct (setSubAtomicParticleCount _ _ _ a) as [[[u b1] u1]|e];
                [|discriminate].
              injection E1 as <- _ _. left. split; [exact V1|].
              intros _ _ [Hin|Hin]; [discriminate|].
              apply NE; [exact Hlc|exact Hpc|exact Hin].
           ++ injection E1 as <- _ _. right.
              split; [reflexivity|]. split; [reflexivity|].
              exists [], rest. split; [reflexivity|].
              apply NE; [exact Hl|]. rewrite Ho. exact Hpc.
           ++ injection E1 as <- _ _. left. split; [exact V1|].
              intros _ _ [Hin|Hin]; [discriminate|].
              apply NE; [exact Hlc|exact Hpc|exact Hin].
           ++ injection E1 as <- _ _. left. split; [exact V1|].
              intros _ _ [Hin|Hin]; [discriminate|].
              apply NE; [exact Hlc|exact Hpc|exact Hin].
           ++ injection E1 as <- _ _. simpl in V1. discriminate.
        -- assert (c1 = cell) as ->.
           { destruct ev as [|pt|]; [|congruence|congruence].
             destruct (setSubAtomicParticleCount _ _ _ a) as [[[u b1] u1]|e];
               [|discriminate].
             congruence. }
           left. split; [exact V1|]. intros _ Hp. discriminate.
      * injection E1 as <- _ _. left. split; [exact V1|]. intros Hf. discriminate.
    + right. rewrite <- Hl, <- Ho.
      split; [exact L1|]. split; [exact P1|].
      exists (ev :: before), after. split; [reflexivity|exact NE].
Qed.

(** X23.  Input events on a cell, from its construction on.  A cell that is not
    interactive changes neither itself nor the atom.  On an interactive cell
    and a live atom, [atomUpdated] fires once for every release, also on the
    cell of the element the atom already is.  And the popup is visible only
    on an interactive pop-on-touch cell, after a touch has come over it and
    no exit has followed. *)
Theorem cell_input_events
    (atomicNumber : Z) (options : Options) (events : list InputEvent)
    (a a' : NumberAtom) (cell' : t) (trace : list Event) :
  live a ->
  handleAll getNumNeutronsInMostCommonIsotope events
    (new_PeriodicTableCell ENABLED_CELL_COLOR initialFontWeight
       atomicNumber options) a = Ok (cell', a', trace) ->
  (interactive options = false ->
   cell' = new_PeriodicTableCell ENABLED_CELL_COLOR initialFontWeight
             atomicNumber options /\
   a' = a /\ trace = []) /\
  (interactive options = true -> emissions trace = releases events) /\
  (popupVisible cell' = Some true ->
   interactive options = true /\ popOnTouch options = true /\
   exists before after,
     events = (before ++ over touch :: after)%list /\ ~ In exit after).
Proof.
  intros L H. split; [|split].
  - intros Hi.
    rewrite handleAll_without_listener in H by exact Hi.
    injection H as <- <- <-. now repeat split.
  - intros Hi.
    exact (proj1 (handleAll_releases events
                    (new_PeriodicTableCell ENABLED_CELL_COLOR initialFontWeight
                       atomicNumber options) _ _ _ _ L Hi H)).
  - intros V.
    destruct (handleAll_popup events _ _ _ _ _ H V)
      as [[V0 _]|(Hl & Hp & Hex)].
    + simpl in V0.
      destruct (interactive options && popOnTouch options); discriminate.
    + simpl in Hl, Hp. now repeat split.
Qed.

End CellProperties.

Lemma cell_input_events_witness :
  exists cell' a' trace,
    PeriodicTableCell.handleAll (fun z => z + 1)
      [ PeriodicTableCell.over PeriodicTableCell.touch;
        PeriodicTableCell.up ]
      (PeriodicTableCell.new_PeriodicTableCell "white" "normal" 3
         (PeriodicTableCell.mkOptions true true true))
      (new_NumberAtom (withCounts 3 4 3)) = Ok (cell', a', trace) /\
    emissions trace = 1%nat /\
    PeriodicTableCell.popupVisible cell' = Some true.
Proof.
  eexists; eexists; eexists.
  assert (E : PeriodicTableCell.handleAll (fun z => z + 1)
                [ PeriodicTableCell.over PeriodicTableCell.touch;
                  PeriodicTableCell.up ]
                (PeriodicTableCell.new_PeriodicTableCell "white" "normal" 3
                   (PeriodicTableCell.mkOptions true true true))
                (new_NumberAtom (withCounts 3 4 3))
              = Ok (PeriodicTableCell.withPopup true 1
                      (PeriodicTableCell.new_PeriodicTableCell "white" "normal"
                         3 (PeriodicTableCell.mkOptions true true true)),
                    new_NumberAtom (withCounts 3 4 3), [AtomUpdated]))
    by reflexivity.
  split; [exact E|].
  split; [|reflexivity].
  exact (proj1 (proj2 (cell_input_events "white" (fun z => z + 1) "normal" 3
                         (PeriodicTableCell.mkOptions true true true) _ _ _ _ _
                         (new_NumberAtom_live _) E)) eq_refl).
Defined.
